(** * pySlice: the mesh model of [Model3D.py] and its z-slicing pass

    A shallow embedding of [src/Model3D.py].  Python floats are IEEE
    binary64 values and are embedded as Rocq's primitive floats, so the
    arithmetic, the comparisons, [sqrt] and [fabs] are the machine's own.
    The dictionaries of the model are [gmap]s keyed by the MD5 hex digest
    the source stores in [Vector3.hash]; object identity (which instance a
    triangle points to) is kept as an address next to the value.  The
    numbers of the cutting plane are sympy's: their operators are an
    interface of which nothing is assumed, and numpy's generator is a
    parameter. *)

From Stdlib Require Import ZArith Ascii String List Bool Lia.
From Stdlib Require Import Floats.
From stdpp Require Import base option list gmap strings.

Set Warnings "-inexact-float".
Local Open Scope Z_scope.

(** ** Python runtime: exceptions and the two ways code can end *)

Inductive exn : Type :=
| ValueError (msg : string)
| ZeroDivisionError (msg : string)
| TypeError (msg : string)
| KeyError (key : string)
| IndexError (msg : string)
| OverflowError (msg : string).

Inductive result (A : Type) : Type :=
| Ok (a : A)
| Raise (e : exn).
Arguments Ok {A} a.
Arguments Raise {A} e.

Definition rbind {A B} (r : result A) (k : A -> result B) : result B :=
  match r with
  | Ok a => k a
  | Raise e => Raise e
  end.

Notation "'try' x <- r ;; k" := (rbind r (fun x => k))
  (at level 10, x name, r at level 99, k at level 200).

(** A method of a mutable object: it reads and writes [self] (the state
    [S]) and either returns or raises; what it wrote before raising stays
    written. *)
Definition M (S A : Type) : Type := S -> result A * S.

Definition ret {S A} (a : A) : M S A := fun s => (Ok a, s).
Definition raise {S A} (e : exn) : M S A := fun s => (Raise e, s).
Definition bind {S A B} (c : M S A) (k : A -> M S B) : M S B :=
  fun s => match c s with
           | (Ok a, s') => k a s'
           | (Raise e, s') => (Raise e, s')
           end.
Definition gets {S A} (f : S -> A) : M S A := fun s => (Ok (f s), s).
Definition modify {S} (f : S -> S) : M S unit := fun s => (Ok tt, f s).
Definition lift {S A} (r : result A) : M S A := fun s => (r, s).
Definition when {S} (b : bool) (c : M S unit) : M S unit :=
  if b then c else ret tt.

Notation "'do' x <- c ;; k" := (bind c (fun x => k))
  (at level 10, x name, c at level 99, k at level 200).

(** [for x in xs: acc = body(acc, x)] *)
Fixpoint for_each {S A B} (xs : list A) (body : B -> A -> M S B) (acc : B) : M S B :=
  match xs with
  | [] => ret acc
  | x :: xs' => do acc' <- body acc x ;; for_each xs' body acc'
  end.

(** A reference to a heap object: the address is the object's identity
    ([id(obj)]), the value is what its attributes hold.  The objects of
    this program are never written after construction. *)
Record ref (A : Type) : Type := mkref { addr : nat; deref : A }.
Arguments mkref {A} addr deref.
Arguments addr {A} r.
Arguments deref {A} r.

(** ** [hashlib.md5] (RFC 1321), on byte strings *)

Module MD5.

Definition mask32 (n : Z) : Z := Z.land n 0xffffffff.
Definition not32 (n : Z) : Z := Z.lxor n 0xffffffff.
Definition rotl32 (x c : Z) : Z :=
  mask32 (Z.lor (Z.shiftl x c) (Z.shiftr x (32 - c))).

Definition shifts : list Z :=
  [7; 12; 17; 22; 7; 12; 17; 22; 7; 12; 17; 22; 7; 12; 17; 22;
   5; 9; 14; 20; 5; 9; 14; 20; 5; 9; 14; 20; 5; 9; 14; 20;
   4; 11; 16; 23; 4; 11; 16; 23; 4; 11; 16; 23; 4; 11; 16; 23;
   6; 10; 15; 21; 6; 10; 15; 21; 6; 10; 15; 21; 6; 10; 15; 21].

Definition K : list Z :=
  [0xd76aa478; 0xe8c7b756; 0x242070db; 0xc1bdceee; 0xf57c0faf; 0x4787c62a;
   0xa8304613; 0xfd469501; 0x698098d8; 0x8b44f7af; 0xffff5bb1; 0x895cd7be;
   0x6b901122; 0xfd987193; 0xa679438e; 0x49b40821; 0xf61e2562; 0xc040b340;
   0x265e5a51; 0xe9b6c7aa; 0xd62f105d; 0x02441453; 0xd8a1e681; 0xe7d3fbc8;
   0x21e1cde6; 0xc33707d6; 0xf4d50d87; 0x455a14ed; 0xa9e3e905; 0xfcefa3f8;
   0x676f02d9; 0x8d2a4c8a; 0xfffa3942; 0x8771f681; 0x6d9d6122; 0xfde5380c;
   0xa4beea44; 0x4bdecfa9; 0xf6bb4b60; 0xbebfbc70; 0x289b7ec6; 0xeaa127fa;
   0xd4ef3085; 0x04881d05; 0xd9d4d039; 0xe6db99e5; 0x1fa27cf8; 0xc4ac5665;
   0xf4292244; 0x432aff97; 0xab9423a7; 0xfc93a039; 0x655b59c3; 0x8f0ccc92;
   0xffeff47d; 0x85845dd1; 0x6fa87e4f; 0xfe2ce6e0; 0xa3014314; 0x4e0811a1;
   0xf7537e82; 0xbd3af235; 0x2ad7d2bb; 0xeb86d391].

Definition bytes_of_string (s : string) : list Z :=
  map (fun c => Z.of_N (N_of_ascii c)) (list_ascii_of_string s).

(** [n] as [k] little-endian bytes *)
Fixpoint le_bytes (k : nat) (n : Z) : list Z :=
  match k with
  | O => []
  | S k' => Z.land n 0xff :: le_bytes k' (Z.shiftr n 8)
  end.

Fixpoint le_word (bs : list Z) : Z :=
  match bs with
  | [] => 0
  | b :: bs' => Z.lor b (Z.shiftl (le_word bs') 8)
  end.

Definition pad (msg : list Z) : list Z :=
  let len := Z.of_nat (length msg) in
  let zeros := Z.to_nat ((55 - len) mod 64) in
  msg ++ 0x80 :: repeat 0 zeros ++ le_bytes 8 (8 * len).

(** cut a list into pieces of [n] elements; [fuel] bounds the number of pieces *)
Fixpoint chunks {A} (fuel n : nat) (l : list A) : list (list A) :=
  match fuel, l with
  | O, _ | _, [] => []
  | S fuel', _ => firstn n l :: chunks fuel' n (skipn n l)
  end.

Definition words (block : list Z) : list Z :=
  map le_word (chunks 16 4 block).

Definition state : Type := Z * Z * Z * Z.

Definition round (w : list Z) (st : state) (i : nat) : state :=
  let '(a, b, c, d) := st in
  let zi := Z.of_nat i in
  let '(f, g) :=
    if zi <? 16 then (Z.lor (Z.land b c) (Z.land (not32 b) d), zi)
    else if zi <? 32 then (Z.lor (Z.land d b) (Z.land (not32 d) c), (5 * zi + 1) mod 16)
    else if zi <? 48 then (Z.lxor b (Z.lxor c d), (3 * zi + 5) mod 16)
    else (Z.lxor c (Z.lor b (not32 d)), (7 * zi) mod 16) in
  let f' := mask32 (f + a + nth i K 0 + nth (Z.to_nat g) w 0) in
  (d, mask32 (b + rotl32 f' (nth i shifts 0)), b, c).

Definition compress (st : state) (block : list Z) : state :=
  let '(a0, b0, c0, d0) := st in
  let '(a, b, c, d) := fold_left (round (words block)) (seq 0 64) st in
  (mask32 (a0 + a), mask32 (b0 + b), mask32 (c0 + c), mask32 (d0 + d)).

Definition init_state : state := (0x67452301, 0xefcdab89, 0x98badcfe, 0x10325476).

Definition digest (msg : list Z) : list Z :=
  let padded := pad msg in
  let '(a, b, c, d) :=
    fold_left compress (chunks (length padded) 64 padded) init_state in
  le_bytes 4 a ++ le_bytes 4 b ++ le_bytes 4 c ++ le_bytes 4 d.

Definition hex_digit (n : Z) : ascii :=
  match String.get (Z.to_nat n) "0123456789abcdef" with
  | Some c => c
  | None => "0"%char
  end.

Fixpoint hex (bs : list Z) : string :=
  match bs with
  | [] => ""%string
  | b :: bs' => String (hex_digit (Z.shiftr b 4)) (String (hex_digit (Z.land b 0xf)) (hex bs'))
  end.

(** [md5(s).hexdigest()] *)
Definition hexdigest (s : string) : string := hex (digest (bytes_of_string s)).

End MD5.

(** ** The ['%f'] conversion of a float *)

Module Format.

Definition digit_char (n : Z) : ascii := ascii_of_N (Z.to_N (48 + n)).

Fixpoint decimal_go (fuel : nat) (n : Z) (acc : string) : string :=
  match fuel with
  | O => acc
  | S fuel' =>
      let acc' := String (digit_char (n mod 10)) acc in
      if n / 10 =? 0 then acc' else decimal_go fuel' (n / 10) acc'
  end.

(** the decimal digits of a natural number *)
Definition decimal (n : Z) : string :=
  decimal_go (S (Z.to_nat (Z.log2 n))) n "".

(** exactly [k] decimal digits, the least significant last *)
Fixpoint fixed_digits (k : nat) (n : Z) (acc : string) : string :=
  match k with
  | O => acc
  | S k' => fixed_digits k' (n / 10) (String (digit_char (n mod 10)) acc)
  end.

(** [m * 2^e * 10^6] rounded to the nearest integer, ties to even: the
    magnitude of a finite float in units of the sixth decimal *)
Definition round6 (m : positive) (e : Z) : Z :=
  let num := Z.pos m * 1000000 * 2 ^ Z.max e 0 in
  let den := 2 ^ Z.max (- e) 0 in
  let q := num / den in
  let r := num mod den in
  match 2 * r ?= den with
  | Lt => q
  | Gt => q + 1
  | Eq => if Z.even q then q else q + 1
  end.

Definition sign (s : bool) : string := (if s then "-" else "")%string.

Definition fixed6 (n : Z) : string :=
  (decimal (n / 1000000) ++ "." ++ fixed_digits 6 (n mod 1000000) "")%string.

(** ['%f' % x]: six digits after the point, correctly rounded *)
Definition format_f (x : float) : string :=
  match Prim2SF x with
  | S754_nan => "nan"%string
  | S754_infinity s => (sign s ++ "inf")%string
  | S754_zero s => (sign s ++ "0.000000")%string
  | S754_finite s m e => (sign s ++ fixed6 (round6 m e))%string
  end.

End Format.

(** ** [Vector3], [Normal], [Edge] *)

(** This is the difference between points, below which we can consider
    them equal. *)
Definition DIFFERENCE_LIMIT : float := 1e-7%float.

Module Vector3.

Record t : Type := mk { x : float; y : float; z : float; hash : string }.

Definition key_string (x y z : float) : string :=
  ("(" ++ Format.format_f x ++ ", " ++ Format.format_f y ++ ", "
       ++ Format.format_f z ++ ")")%string.

(** [Vector3(x, y, z)]: the hash is the MD5 of the formatted coordinates *)
Definition init (x y z : float) : t :=
  mk x y z (MD5.hexdigest (key_string x y z)).

Definition add (self other : t) : t :=
  init (x self + x other) (y self + y other) (z self + z other).

Definition sub (self other : t) : t :=
  init (x self - x other) (y self - y other) (z self - z other).

(** [__eq__]: every coordinate closer than [DIFFERENCE_LIMIT] *)
Definition eq (self other : t) : bool :=
  (abs (x self - x other) <? DIFFERENCE_LIMIT)%float
  && (abs (y self - y other) <? DIFFERENCE_LIMIT)%float
  && (abs (z self - z other) <? DIFFERENCE_LIMIT)%float.

Definition mul (self : t) (multi : float) : t :=
  init (x self * multi) (y self * multi) (z self * multi).

(** Direct distance between point and the origin *)
Definition length (self : t) : float :=
  sqrt (x self * x self + y self * y self + z self * z self).

Definition cross (self other : t) : t :=
  init (y self * z other - z self * y other)
       (z self * x other - x self * z other)
       (x self * y other - y self * x other).

End Vector3.

Module Normal.

(** [Normal] is a subclass of [Vector3] with no attribute of its own. *)
Definition t : Type := Vector3.t.

Definition init (dx dy dz : float) : result t :=
  let l := sqrt (dx * dx + dy * dy + dz * dz) in
  if (l =? 0)%float then Raise (ValueError "Length of Vector is 0")
  else Ok (Vector3.init dx dy dz).

End Normal.

Module Edge.

(** [self.p = [start, end]]; the list of referring facets stays empty at
    the one place this program builds an edge. *)
Record t : Type := mk { p : ref Vector3.t * ref Vector3.t }.

Definition init (start end_ : ref Vector3.t) : t := mk (start, end_).

(** Checks if a Vertex lies on the edge. *)
Definition contains (self : t) (point : ref Vector3.t) : bool :=
  let d1 := Vector3.sub (deref (snd (p self))) (deref (fst (p self))) in
  let d2 := Vector3.sub (deref point) (deref (fst (p self))) in
  let xp := Vector3.cross d1 d2 in
  (Vector3.length xp =? 0)%float
  && ((0 <=? Vector3.length d2)%float && (Vector3.length d2 <=? 1)%float).

End Edge.

(** ** [Triangle] *)

Definition point2 : Type := float * float.
Definition point3 : Type := float * float * float.

Module Triangle.

Record t : Type := mk {
  vertices : ref Vector3.t * ref Vector3.t * ref Vector3.t;
  norm : ref Normal.t
}.

Definition vertex0 (self : t) : ref Vector3.t := fst (fst (vertices self)).
Definition vertex1 (self : t) : ref Vector3.t := snd (fst (vertices self)).
Definition vertex2 (self : t) : ref Vector3.t := snd (vertices self).

Definition set_norm (n : ref Normal.t) (self : t) : t := mk (vertices self) n.

(** [Triangle(p1, p2, p3, norm)].  [norm] is [Some n] when the argument is
    a [Normal] instance and [None] for anything else; [fresh] is the
    address the runtime gives the [Normal] the constructor may allocate. *)
Definition init (p1 p2 p3 : ref Vector3.t) (norm : option (ref Normal.t))
    (fresh : nat) : result t :=
  if Vector3.eq (deref p1) (deref p2) || Vector3.eq (deref p1) (deref p3) then
    Raise (ValueError "Degenerate Facet; Coincident Points")
  else
    let edge := Edge.init p1 p2 in
    if Edge.contains edge p3 then
      Raise (ValueError "Degenerate Facet; Colinear Points")
    else
      match norm with
      | Some n => Ok (mk (p1, p2, p3) n)
      | None =>
          let d1 := Vector3.sub (deref p2) (deref p1) in
          let d2 := Vector3.sub (deref p3) (deref p2) in
          let xp := Vector3.cross d1 d2 in
          try n <- Normal.init (Vector3.x xp) (Vector3.y xp) (Vector3.z xp) ;;
          Ok (mk (p1, p2, p3) (mkref fresh n))
      end.

Definition findInterpolatedPoint (A B : point3) (targetz : float) : result point2 :=
  let '(A0, A1, A2) := A in
  let '(B0, B1, B2) := B in
  let V := (B0 - A0, B1 - A1, B2 - A2)%float in
  let '(V0, V1, V2) := V in
  let refz := (targetz - A2)%float in
  if (V2 =? 0)%float then Raise (ZeroDivisionError "float division by zero")
  else
    let n := (refz / V2)%float in
    Ok (n * V0 + A0, n * V1 + A1)%float.

Definition xyz (v : ref Vector3.t) : point3 :=
  (Vector3.x (deref v), Vector3.y (deref v), Vector3.z (deref v)).

(** the test guarding each call of [findInterpolatedPoint] *)
Definition straddles (a b targetz : float) : bool :=
  ((targetz <? a) && (b <? targetz) || (a <? targetz) && (targetz <? b))%float.

(** The body of [find_interpolated_points_at_z], with the method it calls
    through [self] as a parameter. *)
Definition find_interpolated_points_at_z_with
    (fip : point3 -> point3 -> float -> result point2)
    (self : t) (targetz : float) : result (list point2) :=
  let z0 := Vector3.z (deref (vertex0 self)) in
  let z1 := Vector3.z (deref (vertex1 self)) in
  let z2 := Vector3.z (deref (vertex2 self)) in
  let pair := [] in
  try pair <-
    (if straddles z0 z1 targetz then
       try pt <- fip (xyz (vertex0 self)) (xyz (vertex1 self)) targetz ;;
       Ok (pair ++ [pt])
     else Ok pair) ;;
  try pair <-
    (if straddles z0 z2 targetz then
       try pt <- fip (xyz (vertex0 self)) (xyz (vertex2 self)) targetz ;;
       Ok (pair ++ [pt])
     else Ok pair) ;;
  try pair <-
    (if straddles z1 z2 targetz then
       try pt <- fip (xyz (vertex1 self)) (xyz (vertex2 self)) targetz ;;
       Ok (pair ++ [pt])
     else Ok pair) ;;
  let pair :=
    if (z0 =? targetz)%float then
      pair ++ [(Vector3.x (deref (vertex0 self)), Vector3.y (deref (vertex0 self)))]
    else if (z1 =? targetz)%float then
      pair ++ [(Vector3.x (deref (vertex1 self)), Vector3.y (deref (vertex1 self)))]
    else if (z2 =? targetz)%float then
      pair ++ [(Vector3.x (deref (vertex2 self)), Vector3.y (deref (vertex2 self)))]
    else pair in
  Ok pair.

Definition find_interpolated_points_at_z (self : t) (targetz : float)
    : result (list point2) :=
  find_interpolated_points_at_z_with findInterpolatedPoint self targetz.

End Triangle.

(** ** Numbers at the plane: Python floats and sympy numbers *)

(** The cutting plane is a [sympy.Plane]: the coordinates of its [p1] and
    of its [normal_vector] are sympy numbers.  An operator with a sympy
    operand is sympy's own: a float operand is sympified first, the result
    of arithmetic is a sympy number again, and a comparison has a truth
    value only when sympy can decide it (one with [nan] raises
    [TypeError]).  The program uses the operators below and nothing else
    of sympy's numbers; they are kept as an interface, and nothing is
    assumed of what they answer. *)
Class Sympy (num : Type) : Type := {
  sympify : float -> num;
  sympify_int : Z -> num;
  sym_add : num -> num -> result num;
  sym_sub : num -> num -> result num;
  sym_mul : num -> num -> result num;
  sym_div : num -> num -> result num;
  sym_neg : num -> result num;
  sym_abs : num -> result num;
  sym_gt : num -> num -> result bool;
  sym_ge : num -> num -> result bool;
  sym_le : num -> num -> result bool
}.

(** What a variable of [isect_line_plane_v3] holds: a Python float (the
    coordinates of a vertex, and what float arithmetic makes of them) or a
    sympy number. *)
Inductive value (num : Type) : Type :=
| Float (x : float)
| Sym (n : num).
Arguments Float {num} x.
Arguments Sym {num} n.

(** a tuple or list of three numbers *)
Definition triple (num : Type) : Type := value num * value num * value num.

(** The cutting plane, a [sympy.Plane]: only [p1] and [normal_vector] are
    read, three sympy numbers each. *)
Record Plane (num : Type) : Type :=
  mkPlane { p1 : num * num * num; normal_vector : num * num * num }.
Arguments mkPlane {num} p1 normal_vector.
Arguments p1 {num} p.
Arguments normal_vector {num} p.

(** the [int] literals [0] and [1] of the comparisons, next to a float *)
Definition float_of_literal (k : Z) : float := of_uint63 (Uint63.of_Z k).

Section Operators.

Context {num : Type} {sympy : Sympy num}.

Definition sympified (a : value num) : num :=
  match a with
  | Float x => sympify x
  | Sym n => n
  end.

(** A binary arithmetic operator: the floats' own between two floats,
    sympy's as soon as one operand is a sympy number. *)
Definition operator (on_floats : float -> float -> result float)
    (on_sympy : num -> num -> result num) (a b : value num) : result (value num) :=
  match a, b with
  | Float x, Float y => try r <- on_floats x y ;; Ok (Float r)
  | _, _ => try r <- on_sympy (sympified a) (sympified b) ;; Ok (Sym r)
  end.

Definition py_add : value num -> value num -> result (value num) :=
  operator (fun x y => Ok (x + y)%float) sym_add.

Definition py_sub : value num -> value num -> result (value num) :=
  operator (fun x y => Ok (x - y)%float) sym_sub.

Definition py_mul : value num -> value num -> result (value num) :=
  operator (fun x y => Ok (x * y)%float) sym_mul.

Definition py_div : value num -> value num -> result (value num) :=
  operator (fun x y => if (y =? 0)%float
                       then Raise (ZeroDivisionError "float division by zero")
                       else Ok (x / y)%float) sym_div.

Definition py_neg (a : value num) : result (value num) :=
  match a with
  | Float x => Ok (Float (- x)%float)
  | Sym n => try r <- sym_neg n ;; Ok (Sym r)
  end.

Definition py_abs (a : value num) : result (value num) :=
  match a with
  | Float x => Ok (Float (abs x))
  | Sym n => try r <- sym_abs n ;; Ok (Sym r)
  end.

(** [a > b] for a float [b], as the condition of an [if] *)
Definition py_gt (a : value num) (b : float) : result bool :=
  match a with
  | Float x => Ok (b <? x)%float
  | Sym n => sym_gt n (sympify b)
  end.

(** [a >= k] and [a <= k] for an [int] literal [k] *)
Definition py_ge (a : value num) (k : Z) : result bool :=
  match a with
  | Float x => Ok (float_of_literal k <=? x)%float
  | Sym n => sym_ge n (sympify_int k)
  end.

Definition py_le (a : value num) (k : Z) : result bool :=
  match a with
  | Float x => Ok (x <=? float_of_literal k)%float
  | Sym n => sym_le n (sympify_int k)
  end.

(** ** Line and plane intersection ([isect_line_plane_v3] and its helpers) *)

Definition add_v3v3 (v0 v1 : triple num) : result (triple num) :=
  let '(a0, a1, a2) := v0 in
  let '(b0, b1, b2) := v1 in
  try c0 <- py_add a0 b0 ;;
  try c1 <- py_add a1 b1 ;;
  try c2 <- py_add a2 b2 ;;
  Ok (c0, c1, c2).

Definition sub_v3v3 (v0 v1 : triple num) : result (triple num) :=
  let '(a0, a1, a2) := v0 in
  let '(b0, b1, b2) := v1 in
  try c0 <- py_sub a0 b0 ;;
  try c1 <- py_sub a1 b1 ;;
  try c2 <- py_sub a2 b2 ;;
  Ok (c0, c1, c2).

Definition dot_v3v3 (v0 v1 : triple num) : result (value num) :=
  let '(a0, a1, a2) := v0 in
  let '(b0, b1, b2) := v1 in
  try m0 <- py_mul a0 b0 ;;
  try m1 <- py_mul a1 b1 ;;
  try s <- py_add m0 m1 ;;
  try m2 <- py_mul a2 b2 ;;
  py_add s m2.

Definition len_squared_v3 (v0 : triple num) : result (value num) := dot_v3v3 v0 v0.

Definition mul_v3_fl (v0 : triple num) (f : value num) : result (triple num) :=
  let '(a0, a1, a2) := v0 in
  try c0 <- py_mul a0 f ;;
  try c1 <- py_mul a1 f ;;
  try c2 <- py_mul a2 f ;;
  Ok (c0, c1, c2).

(** [p0], [p1] define the line; [p_co] is a point on the plane and [p_no]
    a normal of it.  [None] when the intersection can't be found. *)
Definition isect_line_plane_v3 (p0 p1 p_co p_no : triple num) (epsilon : float)
    : result (option (triple num)) :=
  try u <- sub_v3v3 p1 p0 ;;
  try dot <- dot_v3v3 p_no u ;;
  try magnitude <- py_abs dot ;;
  try crossing <- py_gt magnitude epsilon ;;
  if crossing then
    try w <- sub_v3v3 p0 p_co ;;
    try d <- dot_v3v3 p_no w ;;
    try minus_d <- py_neg d ;;
    try fac <- py_div minus_d dot ;;
    try u <- mul_v3_fl u fac ;;
    try behind <- py_ge fac 0 ;;
    try within <- (if behind then py_le fac 1 else Ok false) ;;
    if within then try p <- add_v3v3 p0 u ;; Ok (Some p)
    else Ok None
  else Ok None.

(** a vertex as the list [[x, y, z]] of its floats *)
Definition floats (p : point3) : triple num :=
  let '(x, y, z) := p in (Float x, Float y, Float z).

Definition numbers_of (p : num * num * num) : triple num :=
  let '(x, y, z) := p in (Sym x, Sym y, Sym z).

Definition find_interpolated_points_at_plane (self : Triangle.t) (plane : Plane num)
    : result (list (triple num)) :=
  let pair := [] in
  let v1 := floats (Triangle.xyz (Triangle.vertex0 self)) in
  let v2 := floats (Triangle.xyz (Triangle.vertex1 self)) in
  let v3 := floats (Triangle.xyz (Triangle.vertex2 self)) in
  let p_co := numbers_of (p1 plane) in
  let p_no := numbers_of (normal_vector plane) in
  try i1 <- isect_line_plane_v3 v1 v2 p_co p_no 1e-6%float ;;
  try i2 <- isect_line_plane_v3 v1 v3 p_co p_no 1e-6%float ;;
  try i3 <- isect_line_plane_v3 v2 v3 p_co p_no 1e-6%float ;;
  let pair := match i1 with Some i => pair ++ [i] | None => pair end in
  let pair := match i2 with Some i => pair ++ [i] | None => pair end in
  let pair := match i3 with Some i => pair ++ [i] | None => pair end in
  Ok pair.

End Operators.

(** ** [Model3D] *)

Module Model3D.

Record t : Type := mk {
  triangles : list Triangle.t;
  vertices : gmap string (ref Vector3.t);
  normals : gmap string (ref Normal.t);
  name : string;
  xmin : option float; xmax : option float;
  ymin : option float; ymax : option float;
  zmin : option float; zmax : option float;
  mx : float; my : float; mz : float
}.

(** [Model3D(f)] for a file [f] that is not [None] *)
Definition init : t :=
  mk [] ∅ ∅ "" None None None None None None 0%float 0%float 0%float.

(** Attribute assignments [self.a = v]. *)
Definition set_triangles (f : list Triangle.t -> list Triangle.t) (s : t) : t :=
  mk (f (triangles s)) (vertices s) (normals s) (name s) (xmin s) (xmax s)
     (ymin s) (ymax s) (zmin s) (zmax s) (mx s) (my s) (mz s).
Definition set_vertices (f : gmap string (ref Vector3.t) -> gmap string (ref Vector3.t))
    (s : t) : t :=
  mk (triangles s) (f (vertices s)) (normals s) (name s) (xmin s) (xmax s)
     (ymin s) (ymax s) (zmin s) (zmax s) (mx s) (my s) (mz s).
Definition set_normals (f : gmap string (ref Normal.t) -> gmap string (ref Normal.t))
    (s : t) : t :=
  mk (triangles s) (vertices s) (f (normals s)) (name s) (xmin s) (xmax s)
     (ymin s) (ymax s) (zmin s) (zmax s) (mx s) (my s) (mz s).
Definition set_xmin (v : option float) (s : t) : t :=
  mk (triangles s) (vertices s) (normals s) (name s) v (xmax s)
     (ymin s) (ymax s) (zmin s) (zmax s) (mx s) (my s) (mz s).
Definition set_xmax (v : option float) (s : t) : t :=
  mk (triangles s) (vertices s) (normals s) (name s) (xmin s) v
     (ymin s) (ymax s) (zmin s) (zmax s) (mx s) (my s) (mz s).
Definition set_ymin (v : option float) (s : t) : t :=
  mk (triangles s) (vertices s) (normals s) (name s) (xmin s) (xmax s)
     v (ymax s) (zmin s) (zmax s) (mx s) (my s) (mz s).
Definition set_ymax (v : option float) (s : t) : t :=
  mk (triangles s) (vertices s) (normals s) (name s) (xmin s) (xmax s)
     (ymin s) v (zmin s) (zmax s) (mx s) (my s) (mz s).
Definition set_zmin (v : option float) (s : t) : t :=
  mk (triangles s) (vertices s) (normals s) (name s) (xmin s) (xmax s)
     (ymin s) (ymax s) v (zmax s) (mx s) (my s) (mz s).
Definition set_zmax (v : option float) (s : t) : t :=
  mk (triangles s) (vertices s) (normals s) (name s) (xmin s) (xmax s)
     (ymin s) (ymax s) (zmin s) v (mx s) (my s) (mz s).
Definition set_mx (v : float) (s : t) : t :=
  mk (triangles s) (vertices s) (normals s) (name s) (xmin s) (xmax s)
     (ymin s) (ymax s) (zmin s) (zmax s) v (my s) (mz s).
Definition set_my (v : float) (s : t) : t :=
  mk (triangles s) (vertices s) (normals s) (name s) (xmin s) (xmax s)
     (ymin s) (ymax s) (zmin s) (zmax s) (mx s) v (mz s).
Definition set_mz (v : float) (s : t) : t :=
  mk (triangles s) (vertices s) (normals s) (name s) (xmin s) (xmax s)
     (ymin s) (ymax s) (zmin s) (zmax s) (mx s) (my s) v.

(** [d[k]] *)
Definition getitem {A} (d : gmap string A) (k : string) : result A :=
  match d !! k with
  | Some a => Ok a
  | None => Raise (KeyError k)
  end.

(** [k not in d] *)
Definition not_in {A} (k : string) (d : gmap string A) : bool :=
  match d !! k with
  | Some _ => false
  | None => true
  end.

(** [a < b] and [a > b] for a float [a] and an attribute [b] that holds a
    float or [None] *)
Definition lt_attr (a : float) (b : option float) : result bool :=
  match b with
  | Some b' => Ok (a <? b')%float
  | None => Raise (TypeError "'<' not supported between instances of 'float' and 'NoneType'")
  end.
Definition gt_attr (a : float) (b : option float) : result bool :=
  match b with
  | Some b' => Ok (b' <? a)%float
  | None => Raise (TypeError "'>' not supported between instances of 'float' and 'NoneType'")
  end.

(** one axis of the loop body of [update_extents]:
    [if c < self.min: self.min = c  elif c > self.max: self.max = c] *)
Definition widen (c : float) (get_min get_max : t -> option float)
    (set_min set_max : option float -> t -> t) : M t unit :=
  do lo <- gets get_min ;;
  do below <- lift (lt_attr c lo) ;;
  if below then modify (set_min (Some c))
  else
    do hi <- gets get_max ;;
    do above <- lift (gt_attr c hi) ;;
    when above (modify (set_max (Some c))).

(** Update the extents of the model, based on Triangle t *)
Definition update_extents (triangle : Triangle.t) : M t unit :=
  let v0 := deref (Triangle.vertex0 triangle) in
  let v1 := deref (Triangle.vertex1 triangle) in
  let v2 := deref (Triangle.vertex2 triangle) in
  do lo <- gets xmin ;;
  do _ <- when (match lo with None => true | Some _ => false end)
    (do _ <- modify (set_xmin (Some (Vector3.x v0))) ;;
     do _ <- modify (set_xmax (Some (Vector3.x v0))) ;;
     do _ <- modify (set_ymin (Some (Vector3.y v0))) ;;
     do _ <- modify (set_ymax (Some (Vector3.y v0))) ;;
     do _ <- modify (set_zmin (Some (Vector3.z v0))) ;;
     do _ <- modify (set_zmax (Some (Vector3.z v0))) ;;
     do _ <- modify (set_mx 0%float) ;;
     do _ <- modify (set_my 0%float) ;;
     modify (set_mz 0%float)) ;;
  do _ <- modify (fun s => set_mx (mx s + (Vector3.x v0 + Vector3.x v1 + Vector3.x v2))%float s) ;;
  do _ <- modify (fun s => set_my (my s + (Vector3.y v0 + Vector3.y v1 + Vector3.y v2))%float s) ;;
  do _ <- modify (fun s => set_mz (mz s + (Vector3.z v0 + Vector3.z v1 + Vector3.z v2))%float s) ;;
  for_each [v0; v1; v2] (fun _ vertex =>
    do _ <- widen (Vector3.x vertex) xmin xmax set_xmin set_xmax ;;
    do _ <- widen (Vector3.y vertex) ymin ymax set_ymin set_ymax ;;
    widen (Vector3.z vertex) zmin zmax set_zmin set_zmax) tt.

(** Add the specified vertices and possibly a normal vector into the
    object.  [fresh] is the address of the [Normal] that [Triangle] may
    allocate. *)
Definition add_triangle (v1 v2 v3 : ref Vector3.t) (norm : option (ref Normal.t))
    (fresh : nat) : M t unit :=
  let hash_1 := Vector3.hash (deref v1) in
  do absent <- gets (fun s => not_in hash_1 (vertices s)) ;;
  do _ <- when absent (modify (set_vertices <[hash_1 := v1]>)) ;;
  let hash_2 := Vector3.hash (deref v2) in
  do absent <- gets (fun s => not_in hash_2 (vertices s)) ;;
  do _ <- when absent (modify (set_vertices <[hash_2 := v2]>)) ;;
  let hash_3 := Vector3.hash (deref v3) in
  do absent <- gets (fun s => not_in hash_3 (vertices s)) ;;
  do _ <- when absent (modify (set_vertices <[hash_3 := v3]>)) ;;
  do p1 <- (fun s => (getitem (vertices s) hash_1, s)) ;;
  do p2 <- (fun s => (getitem (vertices s) hash_2, s)) ;;
  do p3 <- (fun s => (getitem (vertices s) hash_3, s)) ;;
  do triangle <- lift (Triangle.init p1 p2 p3 norm fresh) ;;
  let norm := match norm with
              | Some n => n
              | None => Triangle.norm triangle
              end in
  let normal_hash := Vector3.hash (deref norm) in
  do absent <- gets (fun s => not_in normal_hash (normals s)) ;;
  do triangle <-
    (if absent then
       do _ <- modify (set_normals <[normal_hash := norm]>) ;; ret triangle
     else
       do pooled <- (fun s => (getitem (normals s) normal_hash, s)) ;;
       ret (Triangle.set_norm pooled triangle)) ;;
  do _ <- modify (set_triangles (fun l => l ++ [triangle])) ;;
  update_extents triangle.

(** Function to slice the model at a certain z coordinate.  Returns an
    array of tuples, describing the various lines between points. *)
Definition slice_at_z (targetz : float) : M t (list (point2 * point2)) :=
  do tris <- gets triangles ;;
  for_each tris (fun output triangle =>
    do points <- lift (Triangle.find_interpolated_points_at_z triangle targetz) ;;
    if Nat.eqb (length points) 2 then
      match points !! 0%nat, points !! 1%nat with
      | Some a, Some b => ret (output ++ [(a, b)])
      | _, _ => raise (IndexError "list index out of range")
      end
    else ret output) [].

(** *** [slice_at_plane] and what it borrows from numpy and sympy *)

(** [float(n)] for a list length *)
Definition float_of_nat (n : nat) : float :=
  of_uint63 (Uint63.of_Z (Z.of_nat n)).

(** [int(x)]: truncation towards zero *)
Definition int_of_float (x : float) : result Z :=
  match Prim2SF x with
  | S754_nan => Raise (ValueError "cannot convert float NaN to integer")
  | S754_infinity _ => Raise (OverflowError "cannot convert float infinity to integer")
  | S754_zero _ => Ok 0
  | S754_finite s m e =>
      let mag := if 0 <=? e then Z.pos m * 2 ^ e else Z.pos m / 2 ^ (- e) in
      Ok (if s then - mag else mag)
  end.

(** the size of the sub sample: [int(length - length*.2)] *)
Definition sample_size (length : nat) : result Z :=
  int_of_float (float_of_nat length - float_of_nat length * 0.2)%float.

(** *** The queries: [__len__], [extents], [centre], [mean_point], [stats] *)

Definition len (self : t) : nat := length (triangles self).

Definition extents (self : t)
    : (option float * option float) * (option float * option float)
      * (option float * option float) :=
  ((xmin self, xmax self), (ymin self, ymax self), (zmin self, zmax self)).

(** [a + b] for two attributes that hold a float or [None] *)
Definition add_attr (a b : option float) : result float :=
  match a, b with
  | Some x, Some y => Ok (x + y)%float
  | _, _ => Raise (TypeError "unsupported operand type(s) for +")
  end.

Definition centre (self : t) : result point3 :=
  try x <- add_attr (xmin self) (xmax self) ;;
  try y <- add_attr (ymin self) (ymax self) ;;
  try z <- add_attr (zmin self) (zmax self) ;;
  Ok (x / 2, y / 2, z / 2)%float.

Definition mean_point (self : t) : result point3 :=
  let c := (3 * length (triangles self))%nat in
  if Nat.eqb c 0 then Raise (ZeroDivisionError "float division by zero")
  else Ok (mx self / float_of_nat c, my self / float_of_nat c,
           mz self / float_of_nat c)%float.

(** the dictionary [stats] returns, key by key *)
Record Stats : Type := mkStats {
  stats_name : string;
  stats_facets : nat;
  stats_vertices : nat;
  stats_normals : nat;
  stats_extents : (option float * option float) * (option float * option float)
                  * (option float * option float);
  stats_centre : point3;
  stats_meanpoint : point3
}.

Definition stats (self : t) : result Stats :=
  try c <- centre self ;;
  try mp <- mean_point self ;;
  Ok (mkStats (name self) (length (triangles self)) (size (vertices self))
              (size (normals self)) (extents self) c mp).

Section SliceAtPlane.

Context {num : Type} {sympy : Sympy num}.

(** The axes are sympy lines: [distance axis point] is
    [float(axis.distance(point))], which is sympy's to answer or to
    refuse. *)
Variable Axis : Type.
Variable distance : Axis -> triple num -> result float.

(** The generator behind [np.random]: [rand k] is its [k]-th draw. *)
Variable rand : nat -> nat.

(** [np.random.choice(a, size)]: [size] entries of [a], every one at a
    freshly drawn index below [len(a)] (the default [replace=True]). *)
Definition random_choice {A} (a : list A) (size : Z) : result (list A) :=
  if size <? 0 then Raise (ValueError "negative dimensions are not allowed")
  else if Nat.eqb (length a) 0 && negb (size =? 0) then
    Raise (ValueError "'a' cannot be empty unless no samples are taken")
  else
    Ok (omap (fun k => a !! (rand k mod length a)%nat) (seq 0 (Z.to_nat size))).

Definition convert_to_2d (x_axis y_axis : Axis) (point : triple num) : result point2 :=
  try x <- distance x_axis point ;;
  try y <- distance y_axis point ;;
  Ok (x, y).

(** lines 501 to 506: the triangles the pass will look at *)
Definition sub_sample (tris : list Triangle.t) : result (list Triangle.t) :=
  let length := List.length tris in
  try size <- sample_size length ;;
  random_choice tris size.

(** Function to slice the model at certain transforms of a plane.
    Returns an array of tuples, describing the various lines between
    points.  (The progress bar it prints is left out.) *)
Definition slice_at_plane (plane : Plane num) (x_axis y_axis : Axis)
    : M t (list (point2 * point2)) :=
  do tris <- gets triangles ;;
  do tris <- lift (sub_sample tris) ;;
  for_each tris (fun output triangle =>
    do points <- lift (find_interpolated_points_at_plane triangle plane) ;;
    if Nat.eqb (length points) 2 then
      match points !! 0%nat, points !! 1%nat with
      | Some a, Some b =>
          do a2 <- lift (convert_to_2d x_axis y_axis a) ;;
          do b2 <- lift (convert_to_2d x_axis y_axis b) ;;
          ret (output ++ [(a2, b2)])
      | _, _ => raise (IndexError "list index out of range")
      end
    else ret output) [].

End SliceAtPlane.

End Model3D.

(** ** The z-slicing policy, in the words of the specification *)

Module Spec.

(** The interpolated point: [A + n·(B − A)] in x and y, with
    [n = (targetz − A.z) / (B.z − A.z)]. *)
Definition interpolated (A B : point3) (targetz : float) : point2 :=
  let '(Ax, Ay, Az) := A in
  let '(Bx, By, Bz) := B in
  let n := ((targetz - Az) / (Bz - Az))%float in
  (Ax + n * (Bx - Ax), Ay + n * (By - Ay))%float.

(** A strict straddle: one endpoint's z is above [targetz] and the
    other's is below it. *)
Definition strictly_straddles (a b targetz : float) : bool :=
  ((targetz <? a) && (b <? targetz) || (targetz <? b) && (a <? targetz))%float.

Definition edge_points (A B : ref Vector3.t) (targetz : float) : list point2 :=
  if strictly_straddles (Vector3.z (deref A)) (Vector3.z (deref B)) targetz
  then [interpolated (Triangle.xyz A) (Triangle.xyz B) targetz]
  else [].

Definition vertex_point (v : ref Vector3.t) (targetz : float) : list point2 :=
  if (Vector3.z (deref v) =? targetz)%float
  then [(Vector3.x (deref v), Vector3.y (deref v))]
  else [].

Definition all_edge_points (self : Triangle.t) (targetz : float) : list point2 :=
  edge_points (Triangle.vertex0 self) (Triangle.vertex1 self) targetz
  ++ edge_points (Triangle.vertex0 self) (Triangle.vertex2 self) targetz
  ++ edge_points (Triangle.vertex1 self) (Triangle.vertex2 self) targetz.

(** Every vertex whose z equals [targetz] is appended once. *)
Definition points_at_z (self : Triangle.t) (targetz : float) : list point2 :=
  all_edge_points self targetz
  ++ vertex_point (Triangle.vertex0 self) targetz
  ++ vertex_point (Triangle.vertex1 self) targetz
  ++ vertex_point (Triangle.vertex2 self) targetz.

(** Only the first vertex (in the order 0, 1, 2) whose z equals
    [targetz] is appended. *)
Definition first_vertex_point (self : Triangle.t) (targetz : float) : list point2 :=
  match vertex_point (Triangle.vertex0 self) targetz with
  | [] =>
      match vertex_point (Triangle.vertex1 self) targetz with
      | [] => vertex_point (Triangle.vertex2 self) targetz
      | found => found
      end
  | found => found
  end.

Definition points_at_z_first (self : Triangle.t) (targetz : float) : list point2 :=
  all_edge_points self targetz ++ first_vertex_point self targetz.

(** The segments of a slice: the two-point results, one pair each, in
    the order of the triangles. *)
Definition segments {A} (results : list (list A)) : list (A * A) :=
  flat_map (fun points => match points with
                          | [a; b] => [(a, b)]
                          | _ => []
                          end) results.

End Spec.

(** ** Decimal digits of a coordinate *)

Module Digits.

(** The sign of a finite float and its magnitude in units of the sixth
    decimal, everything past the sixth decimal cut off. *)
Definition truncated6 (x : float) : option (bool * Z) :=
  match Prim2SF x with
  | S754_zero s => Some (s, 0)
  | S754_finite s m e =>
      Some (s, Z.pos m * 1000000 * 2 ^ Z.max e 0 / 2 ^ Z.max (- e) 0)
  | _ => None
  end.

(** Two floats differ only past the sixth decimal digit: they have the same
    sign, integer part and first six decimals. *)
Definition same_up_to_6th_decimal (x y : float) : Prop :=
  truncated6 x = truncated6 y /\ is_Some (truncated6 x).

(** The sign of a finite float and its magnitude in units of the sixth
    decimal, rounded to the nearest (ties to even). *)
Definition rounded6 (x : float) : option (bool * Z) :=
  match Prim2SF x with
  | S754_zero s => Some (s, 0)
  | S754_finite s m e => Some (s, Format.round6 m e)
  | _ => None
  end.

Definition same_rounded_to_6_decimals (x y : float) : Prop :=
  rounded6 x = rounded6 y /\ is_Some (rounded6 x).

End Digits.

(** ** Concrete meshes used in the examples below *)

Module Examples.

Definition vertex (a : nat) (x y z : float) : ref Vector3.t :=
  mkref a (Vector3.init x y z).

(** the normal [(0, 0, 1)], as a decoder would pass it *)
Definition up : ref Normal.t := mkref 100 (Vector3.init 0 0 1).

(** the triangle [(0,0,0), (2,0,0), (0,2,2)] *)
Definition ramp : Triangle.t :=
  Triangle.mk (vertex 1 0 0 0, vertex 2 2 0 0, vertex 3 0 2 2)
              (mkref 9 (Vector3.init 0 (-4) 4)).

(** a triangle with two of its vertices at [z = 0] *)
Definition grounded : Triangle.t :=
  Triangle.mk (vertex 1 0 0 0, vertex 2 1 0 0, vertex 3 0 1 1) up.

(** five copies of the ramp, moved along x, with the normal given *)
Definition shifted (k : nat) (dx : float) : Triangle.t :=
  Triangle.mk (vertex (3 * k + 1) dx 0 0, vertex (3 * k + 2) (dx + 2) 0 0,
               vertex (3 * k + 3) dx 2 2) up.

Definition fan : list Triangle.t :=
  [shifted 0 0; shifted 1 10; shifted 2 20; shifted 3 30; shifted 4 40].

(** the model after [add_triangle] was called with every triangle of a list *)
Definition model_of (l : list Triangle.t) : Model3D.t :=
  fold_left (fun m t =>
               snd (Model3D.add_triangle (Triangle.vertex0 t) (Triangle.vertex1 t)
                      (Triangle.vertex2 t) (Some (Triangle.norm t)) 0 m))
            l Model3D.init.

(** A stand-in for sympy, to run the examples: its numbers are machine
    floats, and a comparison with a NaN raises as sympy's does. *)
Definition compared (test : float -> float -> bool) (x y : float) : result bool :=
  if (x =? x)%float && (y =? y)%float then Ok (test x y)
  else Raise (TypeError "Invalid NaN comparison").

#[export] Instance machine : Sympy float := {|
  sympify := fun x => x;
  sympify_int := float_of_literal;
  sym_add := fun x y => Ok (x + y)%float;
  sym_sub := fun x y => Ok (x - y)%float;
  sym_mul := fun x y => Ok (x * y)%float;
  sym_div := fun x y => Ok (x / y)%float;
  sym_neg := fun x => Ok (- x)%float;
  sym_abs := fun x => Ok (abs x);
  sym_gt := compared (fun x y => y <? x)%float;
  sym_ge := compared (fun x y => y <=? x)%float;
  sym_le := compared (fun x y => x <=? y)%float
|}.

(** the distance of a point to an axis, taken to be its first coordinate *)
Definition first_coordinate (axis : unit) (p : triple float) : result float :=
  match fst (fst p) with
  | Float x => Ok x
  | Sym x => Ok x
  end.

End Examples.

(** ** Predicates used in the statements *)

(** a zero of either sign *)
Definition is_zero (x : spec_float) : bool :=
  match x with S754_zero _ => true | _ => false end.

(** the part of the model that only [add_triangle] itself writes *)
Definition pools (s : Model3D.t) :=
  (Model3D.triangles s, Model3D.vertices s, Model3D.normals s, Model3D.name s).

(** [quiet c]: [c] keeps the pools and never raises a [ValueError] *)
Definition quiet {A} (c : M Model3D.t A) : Prop :=
  forall s, pools (snd (c s)) = pools s
            /\ forall msg, fst (c s) <> Raise (ValueError msg).

(** every extent holds a float *)
Definition seeded (s : Model3D.t) : Prop :=
  is_Some (Model3D.xmin s) /\ is_Some (Model3D.xmax s)
  /\ is_Some (Model3D.ymin s) /\ is_Some (Model3D.ymax s)
  /\ is_Some (Model3D.zmin s) /\ is_Some (Model3D.zmax s).

(** [steady c]: on a seeded model [c] returns and leaves it seeded *)
Definition steady (c : M Model3D.t unit) : Prop :=
  forall s, seeded s -> exists s', c s = (Ok tt, s') /\ seeded s'.

(** the vertex pool after [if h not in self.vertices: self.vertices[h] = v] *)
Definition pooled (v : ref Vector3.t) (V : gmap string (ref Vector3.t))
    : gmap string (ref Vector3.t) :=
  if Model3D.not_in (Vector3.hash (deref v)) V
  then <[Vector3.hash (deref v) := v]> V
  else V.

(** every key of a pool is the hash of the object stored under it *)
Definition well_keyed (V : gmap string (ref Vector3.t)) : Prop :=
  forall k v, V !! k = Some v -> Vector3.hash (deref v) = k.

(** [held V N t]: the vertices and the normal of [t] are the instances
    the pools [V] and [N] store under their keys *)
Definition held (V N : gmap string (ref Vector3.t)) (t : Triangle.t) : Prop :=
  V !! Vector3.hash (deref (Triangle.vertex0 t)) = Some (Triangle.vertex0 t)
  /\ V !! Vector3.hash (deref (Triangle.vertex1 t)) = Some (Triangle.vertex1 t)
  /\ V !! Vector3.hash (deref (Triangle.vertex2 t)) = Some (Triangle.vertex2 t)
  /\ N !! Vector3.hash (deref (Triangle.norm t)) = Some (Triangle.norm t).

(** Every vertex and normal referenced by a stored triangle is the pooled
    instance for its key, and the pools are keyed by the hashes. *)
Definition canonical (m : Model3D.t) : Prop :=
  well_keyed (Model3D.vertices m)
  /\ well_keyed (Model3D.normals m)
  /\ Forall (held (Model3D.vertices m) (Model3D.normals m)) (Model3D.triangles m).

Section PlaneSegments.

Context {num : Type} {sympy : Sympy num}.
Variable Axis : Type.
Variable distance : Axis -> triple num -> result float.



End PlaneSegments.


(** [x] is a number of finite size (Python's [math.isfinite]) *)
Definition finite (x : float) : bool :=
  match Prim2SF x with
  | S754_zero _ | S754_finite _ _ _ => true
  | _ => false
  end.

(** [x] is not a NaN: it equals itself *)
Definition number (x : float) : Prop := (x =? x)%float = true.

(** The models a program can hold: the new model, and what any sequence
    of [add_triangle] calls, accepted or rejected, makes of it, when every
    vertex passed in satisfies [P]. *)
Inductive reachable (P : Vector3.t -> Prop) : Model3D.t -> Prop :=
| reachable_init : reachable P Model3D.init
| reachable_add v1 v2 v3 norm fresh m :
    P (deref v1) -> P (deref v2) -> P (deref v3) ->
    reachable P m ->
    reachable P (snd (Model3D.add_triangle v1 v2 v3 norm fresh m)).

(** One step of the loop of [update_extents] on one axis, on the bounds
    themselves. *)
Definition widen1 (c : float) (b : float * float) : float * float :=
  if (c <? fst b)%float then (c, snd b)
  else if (snd b <? c)%float then (fst b, c)
  else b.

(** the bounds of one axis after the three vertices of [t] went through
    the loop, in the order 0, 1, 2 *)
Definition widen3 (t : Triangle.t) (coord : Vector3.t -> float) (b : float * float)
    : float * float :=
  widen1 (coord (deref (Triangle.vertex2 t)))
    (widen1 (coord (deref (Triangle.vertex1 t)))
       (widen1 (coord (deref (Triangle.vertex0 t))) b)).

(** what one triangle adds to a running sum *)
Definition sum3 (t : Triangle.t) (coord : Vector3.t -> float) : float :=
  (coord (deref (Triangle.vertex0 t)) + coord (deref (Triangle.vertex1 t))
   + coord (deref (Triangle.vertex2 t)))%float.

(** a running sum over a list of triangles, added in list order *)
Definition running_sum (coord : Vector3.t -> float) (l : list Triangle.t) : float :=
  fold_left (fun acc t => (acc + sum3 t coord)%float) l 0%float.

(** no extent is set *)
Definition unset (s : Model3D.t) : Prop :=
  Model3D.extents s = ((None, None), (None, None), (None, None)).

(** the three messages of the constructors *)
Definition rejection (e : exn) : Prop :=
  e = ValueError "Degenerate Facet; Coincident Points"
  \/ e = ValueError "Degenerate Facet; Colinear Points"
  \/ e = ValueError "Length of Vector is 0".

(** the model [update_extents] leaves, as a function: the first triangle
    sets every bound to its first vertex and the sums to zero, then the
    sums grow and each axis goes through the loop *)
Definition updated (t : Triangle.t) (s : Model3D.t) : Model3D.t :=
  let v0 := deref (Triangle.vertex0 t) in
  let '(bx, by_, bz, sums) :=
    match Model3D.extents s with
    | ((Some xl, Some xh), (Some yl, Some yh), (Some zl, Some zh)) =>
        ((xl, xh), (yl, yh), (zl, zh), (Model3D.mx s, Model3D.my s, Model3D.mz s))
    | _ =>
        ((Vector3.x v0, Vector3.x v0), (Vector3.y v0, Vector3.y v0),
         (Vector3.z v0, Vector3.z v0), (0, 0, 0)%float)
    end in
  let '(sx, sy, sz) := sums in
  Model3D.mk (Model3D.triangles s) (Model3D.vertices s) (Model3D.normals s)
    (Model3D.name s)
    (Some (fst (widen3 t Vector3.x bx))) (Some (snd (widen3 t Vector3.x bx)))
    (Some (fst (widen3 t Vector3.y by_))) (Some (snd (widen3 t Vector3.y by_)))
    (Some (fst (widen3 t Vector3.z bz))) (Some (snd (widen3 t Vector3.z bz)))
    (sx + sum3 t Vector3.x) (sy + sum3 t Vector3.y) (sz + sum3 t Vector3.z).

(** a model with no triangle, no extent and zero sums, or one with
    triangles and every extent set *)
Definition shaped (s : Model3D.t) : Prop :=
  (Model3D.triangles s = [] /\ unset s
   /\ (Model3D.mx s, Model3D.my s, Model3D.mz s) = (0, 0, 0)%float)
  \/ (Model3D.triangles s <> [] /\ seeded s).

(** the three coordinates of a point are numbers, none is a NaN *)
Definition numbers (v : Vector3.t) : Prop :=
  number (Vector3.x v) /\ number (Vector3.y v) /\ number (Vector3.z v).

(** [b] is the pair of the least and the greatest of the values in [S] *)
Definition axis_ok (b : float * float) (S : float -> Prop) : Prop :=
  number (fst b) /\ number (snd b)
  /\ (fst b <=? snd b)%float = true
  /\ (forall c, S c -> (fst b <=? c)%float = true /\ (c <=? snd b)%float = true)
  /\ S (fst b) /\ S (snd b).

(** the vertices of a triangle, as a list *)
Definition corners (t : Triangle.t) : list Vector3.t :=
  [deref (Triangle.vertex0 t); deref (Triangle.vertex1 t); deref (Triangle.vertex2 t)].

(** the values one coordinate takes on the vertices of the stored triangles *)
Definition coordinates (coord : Vector3.t -> float) (m : Model3D.t) (c : float) : Prop :=
  exists t v, In t (Model3D.triangles m) /\ In v (corners t) /\ coord v = c.

(** the two extents of an axis are floats, the least and the greatest
    value of that coordinate over the vertices of the stored triangles *)
Definition spans (lo hi : option float) (coord : Vector3.t -> float) (m : Model3D.t)
    : Prop :=
  exists l h, lo = Some l /\ hi = Some h /\ axis_ok (l, h) (coordinates coord m).

(** the invariant behind the bounding box: every pooled vertex has number
    coordinates, and the extents span the three coordinates *)
Definition boxed (m : Model3D.t) : Prop :=
  (forall k v, Model3D.vertices m !! k = Some v -> numbers (deref v))
  /\ (Model3D.triangles m = []
      \/ spans (Model3D.xmin m) (Model3D.xmax m) Vector3.x m
         /\ spans (Model3D.ymin m) (Model3D.ymax m) Vector3.y m
         /\ spans (Model3D.zmin m) (Model3D.zmax m) Vector3.z m).

(** * Facts about binary64 arithmetic *)

Section SpecFloatFacts.
Variables prec emax : Z.
Hypothesis prec_pos : 0 < prec.

Lemma digits2_pos_lower (m : positive) :
  2 ^ (Z.pos (digits2_pos m) - 1) <= Z.pos m.
Proof.
  induction m as [m IH | m IH |]; simpl digits2_pos.
  - rewrite Pos2Z.inj_succ. replace (Z.succ (Z.pos (digits2_pos m)) - 1) with (Z.succ (Z.pos (digits2_pos m) - 1)) by lia.
    rewrite Z.pow_succ_r by lia. lia.
  - rewrite Pos2Z.inj_succ. replace (Z.succ (Z.pos (digits2_pos m)) - 1) with (Z.succ (Z.pos (digits2_pos m) - 1)) by lia.
    rewrite Z.pow_succ_r by lia. lia.
  - simpl. lia.
Qed.

Lemma digits2_pos_iter_xO (m d : positive) :
  Z.pos (digits2_pos (Pos.iter xO m d)) = Z.pos (digits2_pos m) + Z.pos d.
Proof.
  induction d as [| d IH] using Pos.peano_ind.
  - simpl. lia.
  - rewrite Pos.iter_succ. simpl digits2_pos. lia.
Qed.

Lemma shr_1_m (mrs : shr_record) :
  0 <= shr_m mrs -> shr_m (shr_1 mrs) = shr_m mrs / 2.
Proof.
  destruct mrs as [m r s]. simpl. intros Hm.
  destruct m as [| [p | p |] | p]; simpl; try lia.
  - reflexivity.
  - apply Z.div_unique with (r := 1); lia.
  - apply Z.div_unique with (r := 0); lia.
  - reflexivity.
Qed.

Lemma iter_shr_1_m (p : positive) : forall mrs,
  0 <= shr_m mrs -> shr_m (SpecFloat.iter_pos shr_1 p mrs) = shr_m mrs / 2 ^ Z.pos p.
Proof.
  induction p as [p IH | p IH |]; intros mrs Hm; simpl SpecFloat.iter_pos.
  - assert (H1 : 0 <= shr_m (shr_1 mrs)) by (rewrite shr_1_m by lia; apply Z.div_pos; lia).
    assert (H2 : 0 <= shr_m (SpecFloat.iter_pos shr_1 p (shr_1 mrs))).
    { rewrite IH by lia. apply Z.div_pos; [lia | apply Z.pow_pos_nonneg; lia]. }
    rewrite IH, IH, shr_1_m by lia.
    rewrite !Z.div_div by (try apply Z.pow_pos_nonneg; lia).
    f_equal. change (Z.pos p~1) with (2 * Z.pos p + 1).
    replace (2 * Z.pos p + 1) with (1 + (Z.pos p + Z.pos p)) by lia.
    rewrite Z.pow_add_r, Z.pow_add_r by lia. rewrite Z.pow_1_r. lia.
  - assert (H2 : 0 <= shr_m (SpecFloat.iter_pos shr_1 p mrs)).
    { rewrite IH by lia. apply Z.div_pos; [lia | apply Z.pow_pos_nonneg; lia]. }
    rewrite IH, IH by lia.
    rewrite !Z.div_div by (try apply Z.pow_pos_nonneg; lia).
    f_equal. change (Z.pos p~0) with (2 * Z.pos p).
    replace (2 * Z.pos p) with (Z.pos p + Z.pos p) by lia.
    rewrite Z.pow_add_r by lia. lia.
  - rewrite shr_1_m by lia. reflexivity.
Qed.

Lemma shr_record_of_loc_m m l : shr_m (shr_record_of_loc m l) = m.
Proof. destruct l as [| []]; reflexivity. Qed.

Lemma fexp_ge_emin k : SpecFloat.emin prec emax <= fexp prec emax k.
Proof. unfold fexp. lia. Qed.

(** Rounding a positive mantissa whose exponent is at least [emin] cannot
    lose all of it. *)
Lemma shr_fexp_pos (m e : Z) (l : location) :
  0 < m -> SpecFloat.emin prec emax <= e ->
  0 < shr_m (fst (shr_fexp prec emax m e l))
  /\ SpecFloat.emin prec emax <= snd (shr_fexp prec emax m e l).
Proof.
  intros Hm He. unfold shr_fexp, shr.
  destruct m as [| m |]; try lia. simpl Zdigits2.
  destruct (fexp prec emax (Z.pos (digits2_pos m) + e) - e) as [| n | n] eqn:Hn;
    simpl fst; simpl snd; rewrite ?shr_record_of_loc_m; try (split; lia).
  rewrite iter_shr_1_m by (rewrite shr_record_of_loc_m; lia).
  rewrite shr_record_of_loc_m.
  assert (Hf : Z.pos n = Z.pos (digits2_pos m) - prec) by (unfold fexp in Hn; lia).
  split; [| lia].
  apply Z.div_str_pos. split; [apply Z.pow_pos_nonneg; lia |].
  etransitivity; [| apply digits2_pos_lower].
  apply Z.pow_le_mono_r; lia.
Qed.

Lemma round_nearest_even_pos m l : 0 < m -> 0 < round_nearest_even m l.
Proof.
  intros Hm. destruct l as [| []]; simpl; try lia.
  destruct (Z.even m); lia.
Qed.

Lemma binary_round_aux_nonzero s m e l :
  0 < m -> SpecFloat.emin prec emax <= e ->
  is_zero (binary_round_aux prec emax s m e l) = false.
Proof.
  intros Hm He. unfold binary_round_aux.
  destruct (shr_fexp_pos m e l Hm He) as [H1 H2].
  destruct (shr_fexp prec emax m e l) as [mrs' e']. simpl in H1, H2.
  pose proof (round_nearest_even_pos _ (loc_of_shr_record mrs') H1) as H3.
  destruct (shr_fexp_pos _ e' loc_Exact H3 H2) as [H4 H5].
  destruct (shr_fexp prec emax _ e' loc_Exact) as [mrs'' e'']. simpl in H4, H5.
  destruct (shr_m mrs''); try lia.
  destruct (e'' <=? emax - prec); reflexivity.
Qed.

Lemma shl_align_exp m e e' : SpecFloat.emin prec emax <= e -> SpecFloat.emin prec emax <= e' ->
  SpecFloat.emin prec emax <= snd (shl_align m e e').
Proof. intros. unfold shl_align. destruct (e' - e); simpl; lia. Qed.

Lemma binary_normalize_nonzero m e sz :
  m <> 0 -> SpecFloat.emin prec emax <= e ->
  is_zero (binary_normalize prec emax m e sz) = false.
Proof.
  intros Hm He. unfold binary_normalize, binary_round.
  destruct m as [| m | m]; try lia.
  - pose proof (shl_align_exp m e (fexp prec emax (Z.pos (digits2_pos m) + e)) He (fexp_ge_emin _)) as H.
    destruct (shl_align m e _) as [mz ez]. apply binary_round_aux_nonzero; simpl in H; lia.
  - pose proof (shl_align_exp m e (fexp prec emax (Z.pos (digits2_pos m) + e)) He (fexp_ge_emin _)) as H.
    destruct (shl_align m e _) as [mz ez]. apply binary_round_aux_nonzero; simpl in H; lia.
Qed.

Lemma shl_align_le m e e' : e <= e' -> shl_align m e e' = (m, e).
Proof. intros H. unfold shl_align. destruct (e' - e) eqn:E; try reflexivity. lia. Qed.

Lemma shl_align_gt m e e' : e' < e ->
  exists d, Z.pos d = e - e' /\ shl_align m e e' = (Pos.iter xO m d, e').
Proof.
  intros H. unfold shl_align. destruct (e' - e) as [| d | d] eqn:E; try lia.
  exists d. split; [lia | reflexivity].
Qed.

Lemma bounded_fexp m e :
  bounded prec emax m e = true -> fexp prec emax (Z.pos (digits2_pos m) + e) = e.
Proof.
  unfold bounded, canonical_mantissa. intros H.
  apply andb_true_iff in H. destruct H as [H _]. now apply Z.eqb_eq in H.
Qed.

(** Two different canonical mantissa-exponent pairs stay different once
    brought to their common (smaller) exponent. *)
Lemma aligned_neq mx ex my ey ez :
  bounded prec emax mx ex = true -> bounded prec emax my ey = true ->
  (ex = ey -> mx <> my) -> ez = Z.min ex ey ->
  Z.pos (fst (shl_align mx ex ez)) <> Z.pos (fst (shl_align my ey ez)).
Proof.
  intros Bx By Hne ->.
  apply bounded_fexp in Bx. apply bounded_fexp in By.
  destruct (Z.lt_total ex ey) as [Hlt | [Heq | Hgt]].
  - rewrite Z.min_l by lia. rewrite (shl_align_le mx ex ex) by lia.
    destruct (shl_align_gt my ey ex Hlt) as (d & Hd & ->). simpl. intros E.
    injection E as E. subst mx. rewrite digits2_pos_iter_xO in Bx.
    replace (Z.pos (digits2_pos my) + Z.pos d + ex) with (Z.pos (digits2_pos my) + ey) in Bx by lia.
    lia.
  - subst ey. rewrite Z.min_id, !shl_align_le by lia. simpl.
    intros E. injection E as E. now apply Hne.
  - rewrite Z.min_r by lia. rewrite (shl_align_le my ey ey) by lia.
    destruct (shl_align_gt mx ex ey Hgt) as (d & Hd & ->). simpl. intros E.
    injection E as E. subst my. rewrite digits2_pos_iter_xO in By.
    replace (Z.pos (digits2_pos mx) + Z.pos d + ey) with (Z.pos (digits2_pos mx) + ex) in By by lia.
    lia.
Qed.

Lemma bounded_emin m e : bounded prec emax m e = true -> SpecFloat.emin prec emax <= e.
Proof. intros H. apply bounded_fexp in H. rewrite <- H. apply fexp_ge_emin. Qed.

Lemma SFcompare_Lt_Gt x y : SFcompare x y = Some Lt -> SFcompare y x = Some Gt.
Proof.
  destruct x as [sx | sx | | sx mx ex], y as [sy | sy | | sy my ey]; simpl;
    try destruct sx; try destruct sy; try congruence.
  all: rewrite (Z.compare_antisym ex ey);
    change (Pos.compare_cont Eq my mx) with (Pos.compare my mx);
    change (Pos.compare_cont Eq mx my) with (Pos.compare mx my);
    rewrite (Pos.compare_antisym mx my);
    destruct (ex ?= ey); simpl; try congruence;
    destruct (mx ?= my)%positive; simpl; congruence.
Qed.

Lemma SFltb_trans x y z : SFltb x y = true -> SFltb y z = true -> SFltb x z = true.
Proof.
  unfold SFltb.
  destruct x as [sx | sx | | sx mx ex], y as [sy | sy | | sy my ey],
    z as [sz | sz | | sz mz ez]; simpl;
    try destruct sx; try destruct sy; try destruct sz; try congruence.
  all: change (Pos.compare_cont Eq mx my) with (Pos.compare mx my);
    change (Pos.compare_cont Eq my mz) with (Pos.compare my mz);
    change (Pos.compare_cont Eq mx mz) with (Pos.compare mx mz);
    destruct (Z.compare_spec ex ey), (Z.compare_spec ey ez), (Z.compare_spec ex ez);
    try lia; try congruence;
    destruct (Pos.compare_spec mx my), (Pos.compare_spec my mz), (Pos.compare_spec mx mz);
    simpl; try lia; congruence.
Qed.

Lemma SFeqb_zero r : SFeqb r (S754_zero false) = is_zero r.
Proof. destruct r as [s | s | | s m e]; try destruct s; reflexivity. Qed.

Lemma SFsub_nonzero x y :
  SpecFloat.valid_binary prec emax x = true -> SpecFloat.valid_binary prec emax y = true ->
  SFltb x y = true \/ SFltb y x = true ->
  is_zero (SFsub prec emax x y) = false.
Proof.
  intros Vx Vy H.
  assert (Hc : SFcompare x y = Some Lt \/ SFcompare x y = Some Gt).
  { unfold SFltb in H. destruct H as [H | H].
    - left. destruct (SFcompare x y) as [[]|]; congruence.
    - right. apply SFcompare_Lt_Gt. destruct (SFcompare y x) as [[]|]; congruence. }
  clear H.
  destruct x as [sx | sx | | sx mx ex], y as [sy | sy | | sy my ey]; simpl in *;
    try destruct sx; try destruct sy; try reflexivity;
    try (destruct Hc; congruence).
  all: apply binary_normalize_nonzero;
    [| pose proof (bounded_emin _ _ Vx); pose proof (bounded_emin _ _ Vy); lia].
  all: unfold cond_Zopp; try lia.
  all: assert (Hne : ex = ey -> mx <> my)
      by (intros -> ->; rewrite Z.compare_refl in Hc;
          change (Pos.compare_cont Eq my my) with (Pos.compare my my) in Hc;
          rewrite Pos.compare_refl in Hc; simpl in Hc; destruct Hc; congruence);
    pose proof (aligned_neq mx ex my ey _ Vx Vy Hne eq_refl); lia.
Qed.

End SpecFloatFacts.

Lemma float_sub_nonzero (a b : float) :
  (a <? b)%float = true \/ (b <? a)%float = true -> (a - b =? 0)%float = false.
Proof.
  rewrite !FloatAxioms.ltb_spec, FloatAxioms.eqb_spec, FloatAxioms.sub_spec. intros H.
  change (Prim2SF 0) with (S754_zero false).
  rewrite SFeqb_zero. apply SFsub_nonzero; auto using Prim2SF_valid. reflexivity.
Qed.

Lemma float_ltb_trans (a b c : float) :
  (a <? b)%float = true -> (b <? c)%float = true -> (a <? c)%float = true.
Proof. rewrite !FloatAxioms.ltb_spec. apply SFltb_trans. Qed.

Lemma float_ltb_neq (a b : float) :
  (a <? b)%float = true \/ (b <? a)%float = true -> (a =? b)%float = false.
Proof.
  rewrite !FloatAxioms.ltb_spec, FloatAxioms.eqb_spec. unfold SFltb, SFeqb. intros [H | H].
  - destruct (SFcompare (Prim2SF a) (Prim2SF b)) as [[]|]; congruence.
  - destruct (SFcompare (Prim2SF b) (Prim2SF a)) as [[]|] eqn:E; try congruence.
    now rewrite (SFcompare_Lt_Gt _ _ E).
Qed.

Lemma SFadd_comm (prec emax : Z) (x y : spec_float) :
  SFadd prec emax x y = SFadd prec emax y x.
Proof.
  destruct x as [[] | [] | | sx mx ex], y as [[] | [] | | sy my ey]; try reflexivity.
  simpl. rewrite (Z.min_comm ey ex), Z.add_comm. reflexivity.
Qed.

Lemma float_add_comm (a b : float) : (a + b)%float = (b + a)%float.
Proof.
  apply Prim2SF_inj. rewrite !FloatAxioms.add_spec. apply SFadd_comm.
Qed.

(** * The z-intersection of one triangle *)

Lemma straddles_cases (a b targetz : float) :
  Triangle.straddles a b targetz = true ->
  (a <? b)%float = true \/ (b <? a)%float = true.
Proof.
  unfold Triangle.straddles. intros H.
  apply orb_true_iff in H. destruct H as [H | H];
    apply andb_true_iff in H; destruct H as [H1 H2].
  - right. exact (float_ltb_trans _ _ _ H2 H1).
  - left. exact (float_ltb_trans _ _ _ H1 H2).
Qed.

Lemma straddles_strictly (a b targetz : float) :
  Triangle.straddles a b targetz = Spec.strictly_straddles a b targetz.
Proof.
  unfold Triangle.straddles, Spec.strictly_straddles.
  now rewrite (andb_comm (a <? targetz)%float).
Qed.

(** Behind a straddle test the division is defined, and the point is the
    one the specification names. *)
Lemma findInterpolatedPoint_straddles (A B : point3) (targetz : float) :
  Triangle.straddles (snd A) (snd B) targetz = true ->
  Triangle.findInterpolatedPoint A B targetz = Ok (Spec.interpolated A B targetz).
Proof.
  destruct A as [[A0 A1] A2], B as [[B0 B1] B2]. simpl. intros H.
  apply straddles_cases in H.
  rewrite float_sub_nonzero by tauto.
  now rewrite (float_add_comm A0), (float_add_comm A1).
Qed.

Lemma edge_step (fip : point3 -> point3 -> float -> result point2)
    (A B : ref Vector3.t) (targetz : float) (pair : list point2) :
  (forall P Q, (snd P =? snd Q)%float = false ->
     fip P Q targetz = Triangle.findInterpolatedPoint P Q targetz) ->
  (if Triangle.straddles (Vector3.z (deref A)) (Vector3.z (deref B)) targetz
   then try pt <- fip (Triangle.xyz A) (Triangle.xyz B) targetz ;; Ok (pair ++ [pt])
   else Ok pair)
  = Ok (pair ++ Spec.edge_points A B targetz).
Proof.
  intros Hfip. unfold Spec.edge_points. rewrite <- straddles_strictly.
  destruct (Triangle.straddles _ _ _) eqn:E.
  - rewrite Hfip by (apply float_ltb_neq, (straddles_cases _ _ _ E)).
    now rewrite findInterpolatedPoint_straddles.
  - now rewrite app_nil_r.
Qed.

Lemma first_vertex_point_code (self : Triangle.t) (targetz : float) (pair : list point2) :
  (if (Vector3.z (deref (Triangle.vertex0 self)) =? targetz)%float then
     pair ++ [(Vector3.x (deref (Triangle.vertex0 self)), Vector3.y (deref (Triangle.vertex0 self)))]
   else if (Vector3.z (deref (Triangle.vertex1 self)) =? targetz)%float then
     pair ++ [(Vector3.x (deref (Triangle.vertex1 self)), Vector3.y (deref (Triangle.vertex1 self)))]
   else if (Vector3.z (deref (Triangle.vertex2 self)) =? targetz)%float then
     pair ++ [(Vector3.x (deref (Triangle.vertex2 self)), Vector3.y (deref (Triangle.vertex2 self)))]
   else pair)
  = pair ++ Spec.first_vertex_point self targetz.
Proof.
  unfold Spec.first_vertex_point, Spec.vertex_point.
  destruct (Vector3.z (deref (Triangle.vertex0 self)) =? targetz)%float; [reflexivity |].
  destruct (Vector3.z (deref (Triangle.vertex1 self)) =? targetz)%float; [reflexivity |].
  destruct (Vector3.z (deref (Triangle.vertex2 self)) =? targetz)%float; [reflexivity |].
  now rewrite app_nil_r.
Qed.

(** The method computes the edge points followed by the first vertex at
    the target height, whatever method it is given for the interpolation,
    as long as that method agrees with [findInterpolatedPoint] on
    endpoints of different z. *)
Lemma find_interpolated_points_at_z_with_eq
    (fip : point3 -> point3 -> float -> result point2)
    (self : Triangle.t) (targetz : float) :
  (forall P Q, (snd P =? snd Q)%float = false ->
     fip P Q targetz = Triangle.findInterpolatedPoint P Q targetz) ->
  Triangle.find_interpolated_points_at_z_with fip self targetz
  = Ok (Spec.points_at_z_first self targetz).
Proof.
  intros Hfip. unfold Triangle.find_interpolated_points_at_z_with.
  rewrite (edge_step fip _ _ _ [] Hfip). cbn [rbind].
  rewrite (edge_step fip _ _ _ _ Hfip). cbn [rbind].
  rewrite (edge_step fip _ _ _ _ Hfip). cbn [rbind].
  rewrite first_vertex_point_code.
  unfold Spec.points_at_z_first, Spec.all_edge_points.
  now rewrite !app_nil_l, <- !app_assoc.
Qed.

Lemma find_interpolated_points_at_z_eq (self : Triangle.t) (targetz : float) :
  Triangle.find_interpolated_points_at_z self targetz
  = Ok (Spec.points_at_z_first self targetz).
Proof. now apply find_interpolated_points_at_z_with_eq. Qed.

Example ramp_is_constructed :
  Triangle.init (Examples.vertex 1 0 0 0) (Examples.vertex 2 2 0 0)
                (Examples.vertex 3 0 2 2) None 9 = Ok Examples.ramp.
Proof. vm_compute. reflexivity. Qed.

Example ramp_at_1 :
  Triangle.find_interpolated_points_at_z Examples.ramp 1
  = Ok [(0, 1); (1, 1)]%float.
Proof. vm_compute. reflexivity. Qed.

Example ramp_at_5 :
  Triangle.find_interpolated_points_at_z Examples.ramp 5 = Ok [].
Proof. vm_compute. reflexivity. Qed.

(** Without the guard the method does divide by zero. *)
Example findInterpolatedPoint_level_edge :
  Triangle.findInterpolatedPoint (0, 0, 1)%float (1, 1, 1)%float 1
  = Raise (ZeroDivisionError "float division by zero").
Proof. vm_compute. reflexivity. Qed.

(** C1, as the code has it: the result is the list of the interpolated
    points of the edges (0,1), (0,2), (1,2) whose endpoints strictly
    straddle [targetz], each [A + n·(B − A)] with
    [n = (targetz − A.z) / (B.z − A.z)], followed by the (x, y) of the first
    vertex, in the order 0, 1, 2, whose z equals [targetz], if there is one;
    and this is the list of the claim whenever at most one vertex lies at
    [targetz]. *)
Theorem find_interpolated_points_at_z_policy (self : Triangle.t) (targetz : float) :
  Triangle.find_interpolated_points_at_z self targetz
  = Ok (Spec.all_edge_points self targetz ++ Spec.first_vertex_point self targetz)
  /\ (length (Spec.vertex_point (Triangle.vertex0 self) targetz
              ++ Spec.vertex_point (Triangle.vertex1 self) targetz
              ++ Spec.vertex_point (Triangle.vertex2 self) targetz) <= 1 ->
      Triangle.find_interpolated_points_at_z self targetz
      = Ok (Spec.points_at_z self targetz))%nat.
Proof.
  split; [apply find_interpolated_points_at_z_eq |].
  rewrite find_interpolated_points_at_z_eq.
  unfold Spec.points_at_z_first, Spec.points_at_z, Spec.first_vertex_point,
    Spec.vertex_point.
  destruct (Vector3.z (deref (Triangle.vertex0 self)) =? targetz)%float,
    (Vector3.z (deref (Triangle.vertex1 self)) =? targetz)%float,
    (Vector3.z (deref (Triangle.vertex2 self)) =? targetz)%float;
    simpl; intros H; try reflexivity; lia.
Qed.

(** C1, the claim as stated fails: a valid triangle with two vertices at
    [targetz] gets only the first of them, where the claim lists both. *)
Lemma find_interpolated_points_at_z_second_vertex_dropped :
  Triangle.init (Examples.vertex 1 0 0 0) (Examples.vertex 2 1 0 0)
                (Examples.vertex 3 0 1 1) (Some Examples.up) 0 = Ok Examples.grounded
  /\ Triangle.find_interpolated_points_at_z Examples.grounded 0 = Ok [(0, 0)]%float
  /\ Spec.points_at_z Examples.grounded 0 = [(0, 0); (1, 0)]%float
  /\ Triangle.find_interpolated_points_at_z Examples.grounded 0
     <> Ok (Spec.points_at_z Examples.grounded 0).
Proof.
  vm_compute. repeat split; try reflexivity. discriminate.
Qed.

(** C9: every call of [findInterpolatedPoint] the method makes has
    endpoints of different z (replacing the callee by any method that
    agrees with it on such endpoints changes nothing); behind the straddle
    test the endpoints differ in z and the division is defined; and the
    method returns a list for every triangle and every [targetz]. *)
Theorem find_interpolated_points_at_z_total (self : Triangle.t) (targetz : float) :
  (forall fip : point3 -> point3 -> float -> result point2,
     (forall P Q, (snd P =? snd Q)%float = false ->
        fip P Q targetz = Triangle.findInterpolatedPoint P Q targetz) ->
     Triangle.find_interpolated_points_at_z_with fip self targetz
     = Triangle.find_interpolated_points_at_z self targetz)
  /\ (forall A B : point3,
        Triangle.straddles (snd A) (snd B) targetz = true ->
        (snd A =? snd B)%float = false
        /\ (snd B - snd A =? 0)%float = false
        /\ exists pt, Triangle.findInterpolatedPoint A B targetz = Ok pt)
  /\ exists points, Triangle.find_interpolated_points_at_z self targetz = Ok points.
Proof.
  split; [| split].
  - intros fip Hfip.
    rewrite find_interpolated_points_at_z_eq.
    now apply find_interpolated_points_at_z_with_eq.
  - intros A B H. pose proof (straddles_cases _ _ _ H) as Hc. repeat split.
    + now apply float_ltb_neq.
    + apply float_sub_nonzero. tauto.
    + eexists. now apply findInterpolatedPoint_straddles.
  - eexists. apply find_interpolated_points_at_z_eq.
Qed.

(** * Slicing the whole model at a z coordinate *)

Lemma slice_at_z_loop (targetz : float) (tris : list Triangle.t) :
  forall (output : list (point2 * point2)) (s : Model3D.t),
  for_each tris (fun output triangle =>
    do points <- lift (Triangle.find_interpolated_points_at_z triangle targetz) ;;
    if Nat.eqb (length points) 2 then
      match points !! 0%nat, points !! 1%nat with
      | Some a, Some b => ret (output ++ [(a, b)])
      | _, _ => raise (IndexError "list index out of range")
      end
    else ret output) output s
  = (Ok (output ++ Spec.segments (map (fun t => Spec.points_at_z_first t targetz) tris)), s).
Proof.
  induction tris as [| t tris IH]; intros output s; simpl.
  - now rewrite app_nil_r.
  - unfold bind at 1. unfold bind at 1. unfold lift.
    rewrite find_interpolated_points_at_z_eq.
    destruct (Spec.points_at_z_first t targetz) as [| a [| b [| c l]]]; simpl;
      rewrite IH; try reflexivity.
    now rewrite <- app_assoc.
Qed.

Lemma slice_at_z_run (targetz : float) (m : Model3D.t) :
  Model3D.slice_at_z targetz m
  = (Ok (Spec.segments (map (fun t => Spec.points_at_z_first t targetz)
                            (Model3D.triangles m))), m).
Proof.
  unfold Model3D.slice_at_z. unfold bind at 1. unfold gets.
  exact (slice_at_z_loop targetz (Model3D.triangles m) [] m).
Qed.

(** C5: [slice_at_z] returns, for the per-triangle results taken in the
    order of insertion, exactly the pairs [(points[0], points[1])] of the
    results of length two; results of any other length give no segment. *)
Theorem slice_at_z_segments (m : Model3D.t) (targetz : float) :
  exists results : list (list point2),
    Forall2 (fun triangle points =>
               Triangle.find_interpolated_points_at_z triangle targetz = Ok points)
            (Model3D.triangles m) results
    /\ fst (Model3D.slice_at_z targetz m) = Ok (Spec.segments results).
Proof.
  exists (map (fun t => Spec.points_at_z_first t targetz) (Model3D.triangles m)).
  split.
  - induction (Model3D.triangles m) as [| t l IH]; simpl; constructor; auto.
    apply find_interpolated_points_at_z_eq.
  - now rewrite slice_at_z_run.
Qed.

(** C10: [slice_at_z] only reads: in the model it leaves behind, the
    triangle list (with every triangle's vertices and normal), the vertex
    pool, the normal pool, the six extents and the three running sums are
    what they were; the model is the one it was given. *)
Theorem slice_at_z_read_only (m : Model3D.t) (targetz : float) :
  let m' := snd (Model3D.slice_at_z targetz m) in
  Model3D.triangles m' = Model3D.triangles m
  /\ Model3D.vertices m' = Model3D.vertices m
  /\ Model3D.normals m' = Model3D.normals m
  /\ (Model3D.xmin m', Model3D.xmax m', Model3D.ymin m', Model3D.ymax m',
      Model3D.zmin m', Model3D.zmax m')
     = (Model3D.xmin m, Model3D.xmax m, Model3D.ymin m, Model3D.ymax m,
        Model3D.zmin m, Model3D.zmax m)
  /\ (Model3D.mx m', Model3D.my m', Model3D.mz m')
     = (Model3D.mx m, Model3D.my m, Model3D.mz m)
  /\ m' = m.
Proof.
  intros m'. subst m'.
  rewrite slice_at_z_run. cbn [snd].
  repeat split.
Qed.

Example slice_ramp :
  let m := snd (Model3D.add_triangle (Examples.vertex 1 0 0 0) (Examples.vertex 2 2 0 0)
                  (Examples.vertex 3 0 2 2) None 9 Model3D.init) in
  fst (Model3D.slice_at_z 1 m) = Ok [((0, 1), (1, 1))]%float
  /\ fst (Model3D.slice_at_z 5 m) = Ok [].
Proof. vm_compute. split; reflexivity. Qed.

(** * [update_extents]: what it leaves alone and when it succeeds *)

Lemma quiet_ret {A} (a : A) : quiet (ret a).
Proof. intros s. split; [reflexivity | discriminate]. Qed.

Lemma quiet_gets {A} (f : Model3D.t -> A) : quiet (gets f).
Proof. intros s. split; [reflexivity | discriminate]. Qed.

Lemma quiet_modify (f : Model3D.t -> Model3D.t) :
  (forall s, pools (f s) = pools s) -> quiet (modify f).
Proof. intros H s. split; [apply H | discriminate]. Qed.

Lemma quiet_bind {A B} (c : M Model3D.t A) (k : A -> M Model3D.t B) :
  quiet c -> (forall a, quiet (k a)) -> quiet (bind c k).
Proof.
  intros Hc Hk s. unfold bind. destruct (Hc s) as [H1 H2].
  destruct (c s) as [[a | e] s']; simpl in *.
  - destruct (Hk a s') as [H3 H4]. split; [congruence | assumption].
  - split; [assumption |]. intros msg E. apply (H2 msg). congruence.
Qed.

Lemma quiet_when (b : bool) (c : M Model3D.t unit) : quiet c -> quiet (when b c).
Proof. destruct b; [trivial | intros _; apply quiet_ret]. Qed.

Lemma quiet_lt_attr (a : float) (b : option float) : quiet (lift (Model3D.lt_attr a b)).
Proof. intros s. split; [reflexivity |]. destruct b; discriminate. Qed.

Lemma quiet_gt_attr (a : float) (b : option float) : quiet (lift (Model3D.gt_attr a b)).
Proof. intros s. split; [reflexivity |]. destruct b; discriminate. Qed.

Ltac quiet_step :=
  first [ apply quiet_bind; [| intros ?]
        | apply quiet_gets
        | apply quiet_ret
        | apply quiet_lt_attr
        | apply quiet_gt_attr
        | apply quiet_when
        | apply quiet_modify; intros ?; reflexivity
        | match goal with |- quiet (if ?b then _ else _) => destruct b end ].

Lemma quiet_widen c get_min get_max set_min set_max :
  (forall v s, pools (set_min v s) = pools s) ->
  (forall v s, pools (set_max v s) = pools s) ->
  quiet (Model3D.widen c get_min get_max set_min set_max).
Proof.
  intros Hmin Hmax. unfold Model3D.widen.
  repeat first [ apply quiet_modify; intros ?; first [apply Hmin | apply Hmax]
               | quiet_step ].
Qed.

Lemma quiet_update_extents (triangle : Triangle.t) :
  quiet (Model3D.update_extents triangle).
Proof.
  unfold Model3D.update_extents. cbn [for_each].
  repeat first [ apply quiet_widen; intros ? ?; reflexivity | quiet_step ].
Qed.

Lemma steady_bind (c : M Model3D.t unit) (k : unit -> M Model3D.t unit) :
  steady c -> steady (k tt) -> steady (bind c k).
Proof.
  intros Hc Hk s Hs. unfold bind. destruct (Hc s Hs) as (s' & -> & Hs'). auto.
Qed.

Lemma steady_ret : steady (ret tt).
Proof. intros s Hs. exists s. split; [reflexivity | exact Hs]. Qed.

Lemma steady_modify (f : Model3D.t -> Model3D.t) :
  (forall s, seeded s -> seeded (f s)) -> steady (modify f).
Proof. intros H s Hs. exists (f s). split; [reflexivity | now apply H]. Qed.

Ltac steady_widen :=
  intros s (H1 & H2 & H3 & H4 & H5 & H6);
  destruct s as [T V N nm x0 x1 y0 y1 z0 z1 sx sy sz]; simpl in *;
  destruct H1 as [? ->], H2 as [? ->], H3 as [? ->], H4 as [? ->],
    H5 as [? ->], H6 as [? ->];
  unfold Model3D.widen, bind, gets, lift, when, modify, ret; simpl;
  repeat match goal with
         | |- context [if ?b then _ else _] => destruct b; simpl
         end;
  eexists; (split; [reflexivity |]); unfold seeded; simpl; repeat split; eauto.

Lemma steady_widen_x c :
  steady (Model3D.widen c Model3D.xmin Model3D.xmax Model3D.set_xmin Model3D.set_xmax).
Proof. steady_widen. Qed.

Lemma steady_widen_y c :
  steady (Model3D.widen c Model3D.ymin Model3D.ymax Model3D.set_ymin Model3D.set_ymax).
Proof. steady_widen. Qed.

Lemma steady_widen_z c :
  steady (Model3D.widen c Model3D.zmin Model3D.zmax Model3D.set_zmin Model3D.set_zmax).
Proof. steady_widen. Qed.

Lemma update_extents_ok (triangle : Triangle.t) (s : Model3D.t) :
  Model3D.xmin s = None \/ seeded s ->
  exists s', Model3D.update_extents triangle s = (Ok tt, s') /\ seeded s'.
Proof.
  intros Hs. unfold Model3D.update_extents. cbn [for_each].
  unfold bind at 1. unfold gets at 1.
  match goal with
  | |- context [bind (when ?b ?seed) ?k] =>
      assert (Hseed : exists s1, when b seed s = (Ok tt, s1) /\ seeded s1)
  end.
  { destruct Hs as [Hn | Hs].
    - rewrite Hn. eexists. split; [reflexivity |].
      unfold seeded. simpl. repeat split; eauto.
    - pose proof Hs as (H1 & _). destruct H1 as [lo ->]. exists s. auto. }
  destruct Hseed as (s1 & Hrun & Hs1).
  unfold bind at 1. rewrite Hrun. cbv beta iota.
  clear Hrun. revert s1 Hs1.
  match goal with
  | |- forall s1, seeded s1 -> exists s', ?c s1 = _ /\ _ => change (steady c)
  end.
  repeat first [ apply steady_widen_x | apply steady_widen_y | apply steady_widen_z
               | apply steady_ret
               | apply steady_modify; intros ? (? & ? & ? & ? & ? & ?);
                 unfold seeded; simpl; repeat split; assumption
               | apply steady_bind ].
Qed.

(** * [add_triangle], step by step *)

Lemma pooled_keeps v (V : gmap string (ref Vector3.t)) k x :
  V !! k = Some x -> pooled v V !! k = Some x.
Proof.
  intros H. unfold pooled, Model3D.not_in.
  destruct (V !! Vector3.hash (deref v)) eqn:E; [exact H |].
  rewrite lookup_insert_ne; [exact H | congruence].
Qed.

Lemma pooled_lookup v (V : gmap string (ref Vector3.t)) :
  pooled v V !! Vector3.hash (deref v)
  = Some (default v (V !! Vector3.hash (deref v))).
Proof.
  unfold pooled, Model3D.not_in.
  destruct (V !! Vector3.hash (deref v)) eqn:E; simpl; [exact E |].
  apply lookup_insert_eq.
Qed.

Lemma pooled_well_keyed v (V : gmap string (ref Vector3.t)) :
  well_keyed V -> well_keyed (pooled v V).
Proof.
  intros HV k x. unfold pooled, Model3D.not_in.
  destruct (V !! Vector3.hash (deref v)) eqn:E; [apply HV |].
  rewrite lookup_insert. case_decide as Hk.
  - intros [= <-]. exact Hk.
  - apply HV.
Qed.

Lemma pooled_size v (V : gmap string (ref Vector3.t)) :
  (size (pooled v V) <= S (size V))%nat.
Proof.
  unfold pooled, Model3D.not_in.
  destruct (V !! Vector3.hash (deref v)) eqn:E; [lia |].
  rewrite map_size_insert_None by exact E. lia.
Qed.

Lemma pooled_subseteq v (V : gmap string (ref Vector3.t)) : V ⊆ pooled v V.
Proof.
  unfold pooled, Model3D.not_in.
  destruct (V !! Vector3.hash (deref v)) eqn:E; [reflexivity |].
  now apply insert_subseteq.
Qed.

Lemma pool_vertex_step {A} (v : ref Vector3.t) (k : M Model3D.t A) (s : Model3D.t) :
  (do absent <- gets (fun s => Model3D.not_in (Vector3.hash (deref v)) (Model3D.vertices s)) ;;
   do _ <- when absent (modify (Model3D.set_vertices <[Vector3.hash (deref v) := v]>)) ;;
   k) s
  = k (Model3D.set_vertices (pooled v) s).
Proof.
  unfold bind, gets, when, modify, ret, pooled, Model3D.set_vertices.
  destruct s as [T V N nm x0 x1 y0 y1 z0 z1 sx sy sz]. simpl.
  destruct (Model3D.not_in _ V); reflexivity.
Qed.

Lemma add_triangle_run (v1 v2 v3 : ref Vector3.t) (norm : option (ref Normal.t))
    (fresh : nat) (m : Model3D.t) :
  let V3 := pooled v3 (pooled v2 (pooled v1 (Model3D.vertices m))) in
  let s3 := Model3D.set_vertices (fun _ => V3) m in
  exists p1 p2 p3,
    V3 !! Vector3.hash (deref v1) = Some p1
    /\ V3 !! Vector3.hash (deref v2) = Some p2
    /\ V3 !! Vector3.hash (deref v3) = Some p3
    /\ Model3D.add_triangle v1 v2 v3 norm fresh m
       = match Triangle.init p1 p2 p3 norm fresh with
         | Raise e => (Raise e, s3)
         | Ok triangle =>
             let n := match norm with
                      | Some n => n
                      | None => Triangle.norm triangle
                      end in
             let h := Vector3.hash (deref n) in
             match Model3D.normals m !! h with
             | None =>
                 Model3D.update_extents triangle
                   (Model3D.set_triangles (fun l => l ++ [triangle])
                      (Model3D.set_normals <[h := n]> s3))
             | Some q =>
                 Model3D.update_extents (Triangle.set_norm q triangle)
                   (Model3D.set_triangles (fun l => l ++ [Triangle.set_norm q triangle]) s3)
             end
         end.
Proof.
  intros V3 s3.
  destruct (V3 !! Vector3.hash (deref v1)) as [p1 |] eqn:E1.
  2: { pose proof (pooled_lookup v1 (Model3D.vertices m)) as H.
       apply (pooled_keeps v2), (pooled_keeps v3) in H. subst V3. congruence. }
  destruct (V3 !! Vector3.hash (deref v2)) as [p2 |] eqn:E2.
  2: { pose proof (pooled_lookup v2 (pooled v1 (Model3D.vertices m))) as H.
       apply (pooled_keeps v3) in H. subst V3. congruence. }
  destruct (V3 !! Vector3.hash (deref v3)) as [p3 |] eqn:E3.
  2: { subst V3. rewrite pooled_lookup in E3. discriminate. }
  exists p1, p2, p3. repeat split.
  unfold Model3D.add_triangle. rewrite !pool_vertex_step.
  change (Model3D.set_vertices (pooled v3) (Model3D.set_vertices (pooled v2)
            (Model3D.set_vertices (pooled v1) m))) with s3.
  unfold bind at 1. unfold Model3D.getitem at 1.
  change (Model3D.vertices s3) with V3. rewrite E1.
  unfold bind at 1. unfold Model3D.getitem at 1.
  change (Model3D.vertices s3) with V3. rewrite E2.
  unfold bind at 1. unfold Model3D.getitem at 1.
  change (Model3D.vertices s3) with V3. rewrite E3.
  unfold bind at 1. unfold lift at 1.
  destruct (Triangle.init p1 p2 p3 norm fresh) as [triangle | e]; [| reflexivity].
  cbv zeta. unfold bind at 1. unfold gets at 1. unfold Model3D.not_in at 1.
  change (Model3D.normals s3) with (Model3D.normals m).
  destruct (Model3D.normals m !! _) as [q |] eqn:En.
  - unfold bind at 1. unfold bind at 1. unfold Model3D.getitem.
    change (Model3D.normals s3) with (Model3D.normals m). rewrite En.
    reflexivity.
  - reflexivity.
Qed.

Lemma pooled_other v (V : gmap string (ref Vector3.t)) k :
  k <> Vector3.hash (deref v) -> pooled v V !! k = V !! k.
Proof.
  intros Hk. unfold pooled. destruct (Model3D.not_in _ V); [| reflexivity].
  now rewrite lookup_insert_ne.
Qed.

(** C7, as the code has it: when [add_triangle] fails with a [ValueError]
    (coincident or collinear vertices, or a zero-length computed normal),
    the triangle list, the normal pool, the name, the extents and the
    running sums are what they were; the vertex pool keeps every entry it
    had but has gained the rejected vertices whose keys were new. *)
Theorem add_triangle_rejected (v1 v2 v3 : ref Vector3.t) (norm : option (ref Normal.t))
    (fresh : nat) (m : Model3D.t) (msg : string) :
  fst (Model3D.add_triangle v1 v2 v3 norm fresh m) = Raise (ValueError msg) ->
  let m' := snd (Model3D.add_triangle v1 v2 v3 norm fresh m) in
  Model3D.triangles m' = Model3D.triangles m
  /\ Model3D.normals m' = Model3D.normals m
  /\ Model3D.name m' = Model3D.name m
  /\ (Model3D.xmin m', Model3D.xmax m', Model3D.ymin m', Model3D.ymax m',
      Model3D.zmin m', Model3D.zmax m')
     = (Model3D.xmin m, Model3D.xmax m, Model3D.ymin m, Model3D.ymax m,
        Model3D.zmin m, Model3D.zmax m)
  /\ (Model3D.mx m', Model3D.my m', Model3D.mz m')
     = (Model3D.mx m, Model3D.my m, Model3D.mz m)
  /\ Model3D.vertices m' = pooled v3 (pooled v2 (pooled v1 (Model3D.vertices m)))
  /\ Model3D.vertices m ⊆ Model3D.vertices m'
  /\ forall k, k <> Vector3.hash (deref v1) -> k <> Vector3.hash (deref v2) ->
               k <> Vector3.hash (deref v3) ->
               Model3D.vertices m' !! k = Model3D.vertices m !! k.
Proof.
  intros Hfail m'. subst m'.
  destruct (add_triangle_run v1 v2 v3 norm fresh m) as (p1 & p2 & p3 & _ & _ & _ & Hrun).
  rewrite Hrun in *. clear Hrun.
  destruct (Triangle.init p1 p2 p3 norm fresh) as [triangle | e].
  - exfalso. cbv zeta in Hfail.
    destruct (Model3D.normals m !! _);
      exact (proj2 (quiet_update_extents _ _) _ Hfail).
  - simpl. repeat split; try reflexivity.
    + etransitivity; [apply pooled_subseteq |].
      etransitivity; apply pooled_subseteq.
    + intros k H1 H2 H3. now rewrite !pooled_other.
Qed.

(** C7, the claim as stated fails: a rejected insertion into the empty
    model leaves two vertices in the vertex pool. *)
Lemma add_triangle_rejected_grows_vertex_pool :
  fst (Model3D.add_triangle (Examples.vertex 1 0 0 0) (Examples.vertex 2 0 0 0)
         (Examples.vertex 3 1 0 0) None 9 Model3D.init)
  = Raise (ValueError "Degenerate Facet; Coincident Points")
  /\ size (Model3D.vertices Model3D.init) = 0%nat
  /\ size (Model3D.vertices
             (snd (Model3D.add_triangle (Examples.vertex 1 0 0 0) (Examples.vertex 2 0 0 0)
                     (Examples.vertex 3 1 0 0) None 9 Model3D.init))) = 2%nat
  /\ Model3D.vertices
       (snd (Model3D.add_triangle (Examples.vertex 1 0 0 0) (Examples.vertex 2 0 0 0)
               (Examples.vertex 3 1 0 0) None 9 Model3D.init))
     <> Model3D.vertices Model3D.init.
Proof.
  split; [vm_compute; reflexivity |].
  split; [vm_compute; reflexivity |].
  split; [vm_compute; reflexivity |].
  intros E. apply (f_equal size) in E. vm_compute in E. discriminate E.
Qed.

Lemma add_triangle_rejected_witness :
  let m' := snd (Model3D.add_triangle (Examples.vertex 1 0 0 0) (Examples.vertex 2 0 0 0)
                   (Examples.vertex 3 1 0 0) None 9 Model3D.init) in
  Model3D.triangles m' = Model3D.triangles Model3D.init
  /\ Model3D.normals m' = Model3D.normals Model3D.init
  /\ Model3D.vertices Model3D.init ⊆ Model3D.vertices m'.
Proof.
  pose proof (add_triangle_rejected (Examples.vertex 1 0 0 0) (Examples.vertex 2 0 0 0)
                (Examples.vertex 3 1 0 0) None 9 Model3D.init
                "Degenerate Facet; Coincident Points") as H.
  cbv zeta in *.
  destruct H as (H1 & H2 & _ & _ & _ & _ & H7 & _); [vm_compute; reflexivity |].
  exact (conj H1 (conj H2 H7)).
Defined.

(** * The pooled-instance invariant *)

Lemma held_mono (V V' N N' : gmap string (ref Vector3.t)) (t : Triangle.t) :
  V ⊆ V' -> N ⊆ N' -> held V N t -> held V' N' t.
Proof.
  intros HV HN (H0 & H1 & H2 & H3).
  repeat split; eapply lookup_weaken; eauto.
Qed.

Lemma Triangle_init_ok p1 p2 p3 norm fresh t :
  Triangle.init p1 p2 p3 norm fresh = Ok t ->
  Triangle.vertices t = (p1, p2, p3)
  /\ forall n, norm = Some n -> Triangle.norm t = n.
Proof.
  unfold Triangle.init.
  destruct (_ || _); [discriminate |].
  destruct (Edge.contains _ _); [discriminate |].
  destruct norm as [n |].
  - intros [= <-]. split; [reflexivity |]. now intros ? [= <-].
  - destruct (Normal.init _ _ _); simpl; [| discriminate].
    intros [= <-]. split; [reflexivity | discriminate].
Qed.

(** The address handed to the constructor decides nothing but the
    identity of a normal it computes. *)
Lemma Triangle_init_fresh p1 p2 p3 norm fresh fresh' t :
  Triangle.init p1 p2 p3 norm fresh = Ok t ->
  exists t', Triangle.init p1 p2 p3 norm fresh' = Ok t'
             /\ Triangle.vertices t' = Triangle.vertices t
             /\ deref (Triangle.norm t') = deref (Triangle.norm t)
             /\ (forall n, norm = Some n -> Triangle.norm t' = n).
Proof.
  unfold Triangle.init.
  destruct (_ || _); [discriminate |].
  destruct (Edge.contains _ _); [discriminate |].
  destruct norm as [n |].
  - intros [= <-]. eexists. repeat split. now intros ? [= <-].
  - destruct (Normal.init _ _ _); simpl; [| discriminate].
    intros [= <-]. eexists. repeat split. discriminate.
Qed.

Lemma pooled_id v (V : gmap string (ref Vector3.t)) :
  is_Some (V !! Vector3.hash (deref v)) -> pooled v V = V.
Proof.
  intros [p Hp]. unfold pooled, Model3D.not_in. now rewrite Hp.
Qed.

Lemma well_keyed_insert (N : gmap string (ref Vector3.t)) (n : ref Vector3.t) :
  well_keyed N -> well_keyed (<[Vector3.hash (deref n) := n]> N).
Proof.
  intros HN k x. rewrite lookup_insert. case_decide as Hk.
  - intros [= <-]. exact Hk.
  - apply HN.
Qed.

Lemma pools_inv (s s' : Model3D.t) :
  pools s' = pools s ->
  Model3D.triangles s' = Model3D.triangles s
  /\ Model3D.vertices s' = Model3D.vertices s
  /\ Model3D.normals s' = Model3D.normals s.
Proof. unfold pools. intros [= -> -> -> _]. auto. Qed.

Lemma add_triangle_keeps_canonical (v1 v2 v3 : ref Vector3.t)
    (norm : option (ref Normal.t)) (fresh : nat) (m : Model3D.t) :
  canonical m -> canonical (snd (Model3D.add_triangle v1 v2 v3 norm fresh m)).
Proof.
  intros (HV & HN & HT).
  destruct (add_triangle_run v1 v2 v3 norm fresh m) as (p1 & p2 & p3 & E1 & E2 & E3 & Hrun).
  rewrite Hrun. clear Hrun.
  set (V3 := pooled v3 (pooled v2 (pooled v1 (Model3D.vertices m)))) in *.
  assert (HV3 : well_keyed V3) by (repeat apply pooled_well_keyed; exact HV).
  assert (Hsub : Model3D.vertices m ⊆ V3).
  { etransitivity; [apply pooled_subseteq |]. etransitivity; apply pooled_subseteq. }
  destruct (Triangle.init p1 p2 p3 norm fresh) as [triangle | e] eqn:Hinit.
  - destruct (Triangle_init_ok _ _ _ _ _ _ Hinit) as [Hvs Hnorm].
    assert (Hp : forall q N', held V3 N' (Triangle.set_norm q triangle)
                              <-> N' !! Vector3.hash (deref q) = Some q).
    { intros q N'. unfold held, Triangle.vertex0, Triangle.vertex1, Triangle.vertex2.
      simpl. rewrite Hvs. simpl.
      rewrite (HV3 _ _ E1), (HV3 _ _ E2), (HV3 _ _ E3). tauto. }
    cbv zeta.
    set (n := match norm with Some n => n | None => Triangle.norm triangle end).
    assert (Hn : Triangle.set_norm n triangle = triangle).
    { destruct triangle as [vs nn]. unfold Triangle.set_norm. simpl. f_equal.
      subst n. destruct norm as [n0 |]; [| reflexivity].
      symmetry. now apply (Hnorm n0). }
    destruct (Model3D.normals m !! Vector3.hash (deref n)) as [q |] eqn:En.
    + match goal with |- canonical (snd (Model3D.update_extents ?t ?s)) =>
        destruct (pools_inv _ _ (proj1 (quiet_update_extents t s))) as (HT' & HV' & HN')
      end.
      unfold canonical. rewrite HT', HV', HN'. simpl.
      split; [exact HV3 |]. split; [exact HN |].
      apply Forall_app. split.
      * eapply Forall_impl; [exact HT |]. intros t. now apply held_mono.
      * constructor; [| constructor]. apply Hp.
        pose proof (HN _ _ En) as Hq. unfold Normal.t in *.
        now rewrite Hq.
    + match goal with |- canonical (snd (Model3D.update_extents ?t ?s)) =>
        destruct (pools_inv _ _ (proj1 (quiet_update_extents t s))) as (HT' & HV' & HN')
      end.
      unfold canonical. rewrite HT', HV', HN'. simpl.
      split; [exact HV3 |]. split; [now apply well_keyed_insert |].
      apply Forall_app. split.
      * eapply Forall_impl; [exact HT |]. intros t.
        apply held_mono; [exact Hsub | now apply insert_subseteq].
      * constructor; [| constructor]. rewrite <- Hn. apply Hp.
        apply lookup_insert_eq.
  - simpl. split; [exact HV3 |]. split; [exact HN |].
    eapply Forall_impl; [exact HT |]. intros t. now apply held_mono.
Qed.

Lemma seeded_frame (s : Model3D.t) f g :
  seeded s -> seeded (Model3D.set_triangles f (Model3D.set_vertices g s)).
Proof. intros H. exact H. Qed.

Lemma add_triangle_twice (v1 v2 v3 w1 w2 w3 : ref Vector3.t)
    (norm : option (ref Normal.t)) (fresh fresh' : nat) :
  Vector3.hash (deref w1) = Vector3.hash (deref v1) ->
  Vector3.hash (deref w2) = Vector3.hash (deref v2) ->
  Vector3.hash (deref w3) = Vector3.hash (deref v3) ->
  fst (Model3D.add_triangle v1 v2 v3 norm fresh Model3D.init) = Ok tt ->
  exists m2 t1 t2,
    Model3D.add_triangle w1 w2 w3 norm fresh'
      (snd (Model3D.add_triangle v1 v2 v3 norm fresh Model3D.init)) = (Ok tt, m2)
    /\ (size (Model3D.vertices m2) <= 3)%nat
    /\ Model3D.triangles m2 = [t1; t2]
    /\ Triangle.vertices t1 = Triangle.vertices t2
    /\ Triangle.norm t1 = Triangle.norm t2.
Proof.
  intros Hw1 Hw2 Hw3 Hok.
  destruct (add_triangle_run v1 v2 v3 norm fresh Model3D.init)
    as (p1 & p2 & p3 & E1 & E2 & E3 & Hrun).
  rewrite Hrun in *. clear Hrun.
  change (Model3D.vertices Model3D.init) with (∅ : gmap string (ref Vector3.t)) in *.
  set (V3 := pooled v3 (pooled v2 (pooled v1 ∅))) in *.
  destruct (Triangle.init p1 p2 p3 norm fresh) as [tri | e] eqn:Hinit; [| discriminate].
  cbv zeta in *.
  change (Model3D.normals Model3D.init) with (∅ : gmap string (ref Vector3.t)) in *.
  rewrite lookup_empty in *.
  set (n := match norm with Some n => n | None => Triangle.norm tri end) in *.
  match type of Hok with fst (Model3D.update_extents ?t ?s) = _ =>
    destruct (update_extents_ok t s (or_introl eq_refl)) as (m1 & Hm1 & Hseed);
    pose proof (proj1 (quiet_update_extents t s)) as Hp1
  end.
  rewrite Hm1 in *. simpl snd in *. clear Hok.
  apply pools_inv in Hp1. simpl in Hp1. destruct Hp1 as (HT1 & HV1 & HN1).
  destruct (add_triangle_run w1 w2 w3 norm fresh' m1)
    as (q1 & q2 & q3 & F1 & F2 & F3 & Hrun).
  rewrite HV1, HN1, Hw1, Hw2, Hw3 in *.
  assert (HV3 : pooled w3 (pooled w2 (pooled w1 V3)) = V3).
  { rewrite (pooled_id w1) by (rewrite Hw1; eauto).
    rewrite (pooled_id w2) by (rewrite Hw2; eauto).
    apply pooled_id. rewrite Hw3. eauto. }
  rewrite HV3 in *.
  assert (q1 = p1) as -> by congruence.
  assert (q2 = p2) as -> by congruence.
  assert (q3 = p3) as -> by congruence.
  destruct (Triangle_init_fresh _ _ _ _ _ fresh' _ Hinit) as (t' & Hinit' & Hvs & Hd & Hnorm').
  destruct (Triangle_init_ok _ _ _ _ _ _ Hinit) as [_ Hnorm].
  rewrite Hinit' in Hrun. cbv zeta in Hrun.
  assert (Hh : Vector3.hash (deref (match norm with Some n0 => n0 | None => Triangle.norm t' end))
               = Vector3.hash (deref n)).
  { subst n. destruct norm; [reflexivity | now rewrite Hd]. }
  rewrite Hh, lookup_insert_eq in Hrun.
  match type of Hrun with _ = Model3D.update_extents ?t ?s =>
    destruct (update_extents_ok t s (or_intror (seeded_frame m1 _ _ Hseed)))
      as (m2 & Hm2 & _);
    pose proof (proj1 (quiet_update_extents t s)) as Hp2
  end.
  rewrite Hm2 in Hrun, Hp2. simpl snd in Hp2.
  apply pools_inv in Hp2. simpl in Hp2. destruct Hp2 as (HT2 & HV2 & _).
  exists m2, tri, (Triangle.set_norm n t').
  split; [exact Hrun |]. split; [| split; [| split]].
  - rewrite HV2. subst V3.
    pose proof (pooled_size v1 ∅). pose proof (pooled_size v2 (pooled v1 ∅)).
    pose proof (pooled_size v3 (pooled v2 (pooled v1 ∅))).
    rewrite map_size_empty in *. lia.
  - rewrite HT2, HT1. reflexivity.
  - simpl. now rewrite Hvs.
  - simpl. subst n. destruct norm as [n0 |]; [| reflexivity]. now apply Hnorm.
Qed.

(** First seen wins: an entry of a pool is never replaced. *)
Lemma add_triangle_pools_grow (v1 v2 v3 : ref Vector3.t)
    (norm : option (ref Normal.t)) (fresh : nat) (m : Model3D.t) :
  Model3D.vertices m ⊆ Model3D.vertices (snd (Model3D.add_triangle v1 v2 v3 norm fresh m))
  /\ Model3D.normals m ⊆ Model3D.normals (snd (Model3D.add_triangle v1 v2 v3 norm fresh m)).
Proof.
  destruct (add_triangle_run v1 v2 v3 norm fresh m) as (p1 & p2 & p3 & _ & _ & _ & Hrun).
  rewrite Hrun. clear Hrun.
  assert (Hsub : Model3D.vertices m
                 ⊆ pooled v3 (pooled v2 (pooled v1 (Model3D.vertices m)))).
  { etransitivity; [apply pooled_subseteq |]. etransitivity; apply pooled_subseteq. }
  destruct (Triangle.init p1 p2 p3 norm fresh) as [triangle | e].
  - cbv zeta.
    destruct (Model3D.normals m !! _) as [q |] eqn:En;
      match goal with |- context [snd (Model3D.update_extents ?t ?s)] =>
        destruct (pools_inv _ _ (proj1 (quiet_update_extents t s))) as (_ & -> & ->)
      end; simpl; (split; [exact Hsub |]).
    + reflexivity.
    + now apply insert_subseteq.
  - simpl. split; [exact Hsub | reflexivity].
Qed.

Lemma canonical_init : canonical Model3D.init.
Proof.
  repeat split; try constructor; intros k v; simpl; rewrite lookup_empty; discriminate.
Qed.

(** C4: [add_triangle] preserves the invariant that the pools are keyed
    by the hashes and that every vertex and normal of a stored triangle is
    the instance pooled under its key; the new model has it; a pooled
    entry is never replaced (the first instance seen wins); and when a
    triple is accepted by the new model, inserting the same triple again
    (the same instances, or others with the same keys) succeeds and leaves
    at most three pooled vertices and two triangles that point to the same
    vertex instances (and normal). *)
Theorem add_triangle_canonical :
  canonical Model3D.init
  /\ (forall v1 v2 v3 norm fresh m,
        canonical m -> canonical (snd (Model3D.add_triangle v1 v2 v3 norm fresh m)))
  /\ (forall v1 v2 v3 norm fresh m,
        Model3D.vertices m
          ⊆ Model3D.vertices (snd (Model3D.add_triangle v1 v2 v3 norm fresh m))
        /\ Model3D.normals m
             ⊆ Model3D.normals (snd (Model3D.add_triangle v1 v2 v3 norm fresh m)))
  /\ (forall v1 v2 v3 w1 w2 w3 norm fresh fresh',
        Vector3.hash (deref w1) = Vector3.hash (deref v1) ->
        Vector3.hash (deref w2) = Vector3.hash (deref v2) ->
        Vector3.hash (deref w3) = Vector3.hash (deref v3) ->
        fst (Model3D.add_triangle v1 v2 v3 norm fresh Model3D.init) = Ok tt ->
        exists m2 t1 t2,
          Model3D.add_triangle w1 w2 w3 norm fresh'
            (snd (Model3D.add_triangle v1 v2 v3 norm fresh Model3D.init)) = (Ok tt, m2)
          /\ (size (Model3D.vertices m2) <= 3)%nat
          /\ Model3D.triangles m2 = [t1; t2]
          /\ Triangle.vertices t1 = Triangle.vertices t2
          /\ Triangle.norm t1 = Triangle.norm t2
          /\ canonical m2).
Proof.
  split; [apply canonical_init |].
  split; [apply add_triangle_keeps_canonical |].
  split; [apply add_triangle_pools_grow |].
  intros v1 v2 v3 w1 w2 w3 norm fresh fresh' Hw1 Hw2 Hw3 Hok.
  destruct (add_triangle_twice v1 v2 v3 w1 w2 w3 norm fresh fresh' Hw1 Hw2 Hw3 Hok)
    as (m2 & t1 & t2 & Hrun & Hsize & Htris & Hvs & Hnorm).
  exists m2, t1, t2.
  refine (conj Hrun (conj Hsize (conj Htris (conj Hvs (conj Hnorm _))))).
  replace m2 with (snd (Model3D.add_triangle w1 w2 w3 norm fresh'
                          (snd (Model3D.add_triangle v1 v2 v3 norm fresh Model3D.init))))
    by now rewrite Hrun.
  apply add_triangle_keeps_canonical, add_triangle_keeps_canonical, canonical_init.
Qed.

Lemma add_triangle_canonical_witness :
  exists m2 t1 t2,
    Model3D.add_triangle (Examples.vertex 4 0 0 0) (Examples.vertex 5 2 0 0)
      (Examples.vertex 6 0 2 2) None 10
      (snd (Model3D.add_triangle (Examples.vertex 1 0 0 0) (Examples.vertex 2 2 0 0)
              (Examples.vertex 3 0 2 2) None 9 Model3D.init)) = (Ok tt, m2)
    /\ (size (Model3D.vertices m2) <= 3)%nat
    /\ Model3D.triangles m2 = [t1; t2]
    /\ Triangle.vertices t1 = Triangle.vertices t2
    /\ Triangle.norm t1 = Triangle.norm t2
    /\ canonical m2.
Proof.
  apply (proj2 (proj2 (proj2 add_triangle_canonical)));
    vm_compute; reflexivity.
Defined.

(** Two decoded facets with the same coordinates are different objects;
    the second triangle still points to the instances pooled by the first. *)
Example same_coordinates_share_instances :
  let m1 := snd (Model3D.add_triangle (Examples.vertex 1 0 0 0) (Examples.vertex 2 2 0 0)
                   (Examples.vertex 3 0 2 2) None 9 Model3D.init) in
  let m2 := snd (Model3D.add_triangle (Examples.vertex 4 0 0 0) (Examples.vertex 5 2 0 0)
                   (Examples.vertex 6 0 2 2) None 10 m1) in
  map (fun t => (addr (Triangle.vertex0 t), addr (Triangle.vertex1 t),
                 addr (Triangle.vertex2 t), addr (Triangle.norm t)))
      (Model3D.triangles m2)
  = [(1, 2, 3, 9); (1, 2, 3, 9)]%nat
  /\ size (Model3D.vertices m2) = 3%nat.
Proof. vm_compute. split; reflexivity. Qed.

(** * Degenerate triangles *)

(** The constructor does reject a first vertex that coincides with the
    second or the third. *)
Lemma Triangle_init_coincident_first p1 p2 p3 norm fresh :
  Vector3.eq (deref p1) (deref p2) = true \/ Vector3.eq (deref p1) (deref p3) = true ->
  Triangle.init p1 p2 p3 norm fresh
  = Raise (ValueError "Degenerate Facet; Coincident Points").
Proof.
  intros H. unfold Triangle.init.
  destruct (Vector3.eq (deref p1) (deref p2)), (Vector3.eq (deref p1) (deref p3));
    simpl; try reflexivity.
  destruct H; discriminate.
Qed.

(** C2, at the failing input: the second and third vertex are the same
    point [(2,0,0)], equal by [Vector3.eq], and the triangle is built, by
    the constructor and by [add_triangle]; when such a pair lies within
    distance 1 of the first vertex the error raised is the collinear one. *)
Theorem coincident_second_third_accepted :
  Vector3.eq (Vector3.init 2 0 0) (Vector3.init 2 0 0) = true
  /\ Triangle.init (Examples.vertex 1 0 0 0) (Examples.vertex 2 2 0 0)
       (Examples.vertex 3 2 0 0) (Some Examples.up) 9
     = Ok (Triangle.mk (Examples.vertex 1 0 0 0, Examples.vertex 2 2 0 0,
                        Examples.vertex 3 2 0 0) Examples.up)
  /\ fst (Model3D.add_triangle (Examples.vertex 1 0 0 0) (Examples.vertex 2 2 0 0)
            (Examples.vertex 3 2 0 0) (Some Examples.up) 9 Model3D.init) = Ok tt
  /\ length (Model3D.triangles
               (snd (Model3D.add_triangle (Examples.vertex 1 0 0 0) (Examples.vertex 2 2 0 0)
                       (Examples.vertex 3 2 0 0) (Some Examples.up) 9 Model3D.init))) = 1%nat
  /\ Triangle.init (Examples.vertex 1 0 0 0) (Examples.vertex 2 1 0 0)
       (Examples.vertex 3 1 0 0) (Some Examples.up) 9
     = Raise (ValueError "Degenerate Facet; Colinear Points").
Proof. vm_compute. repeat split; reflexivity. Qed.

(** C3, at the failing input: [(2,0,0)] is the midpoint of the edge from
    [(0,0,0)] to [(4,0,0)], yet [contains] answers [False] (it compares the
    distance from the start with 1, not the position along the edge) and
    the triangle is built; the collinear triple [(0,0,0), (1,0,0), (2,0,0)]
    of the specification is built as well when a normal is supplied, and
    fails only with the zero-length-normal error when none is; and
    [(-0.5,0,0)], which is off the edge, counts as contained. *)
Theorem collinear_points_accepted :
  Edge.contains (Edge.init (Examples.vertex 1 0 0 0) (Examples.vertex 2 4 0 0))
                (Examples.vertex 3 2 0 0) = false
  /\ Triangle.init (Examples.vertex 1 0 0 0) (Examples.vertex 2 4 0 0)
       (Examples.vertex 3 2 0 0) (Some Examples.up) 9
     = Ok (Triangle.mk (Examples.vertex 1 0 0 0, Examples.vertex 2 4 0 0,
                        Examples.vertex 3 2 0 0) Examples.up)
  /\ Triangle.init (Examples.vertex 1 0 0 0) (Examples.vertex 2 1 0 0)
       (Examples.vertex 3 2 0 0) (Some Examples.up) 9
     = Ok (Triangle.mk (Examples.vertex 1 0 0 0, Examples.vertex 2 1 0 0,
                        Examples.vertex 3 2 0 0) Examples.up)
  /\ Triangle.init (Examples.vertex 1 0 0 0) (Examples.vertex 2 1 0 0)
       (Examples.vertex 3 2 0 0) None 9
     = Raise (ValueError "Length of Vector is 0")
  /\ Edge.contains (Edge.init (Examples.vertex 1 0 0 0) (Examples.vertex 2 4 0 0))
                   (Examples.vertex 3 (-0.5) 0 0) = true.
Proof. vm_compute. repeat split; reflexivity. Qed.

(** * The content key of a point *)

Lemma format_f_rounded6 (x : float) (s : bool) (n : Z) :
  Digits.rounded6 x = Some (s, n) ->
  Format.format_f x = (Format.sign s ++ Format.fixed6 n)%string.
Proof.
  unfold Digits.rounded6, Format.format_f.
  destruct (Prim2SF x) as [s0 | s0 | | s0 m e]; try discriminate;
    intros [= <- <-]; reflexivity.
Qed.

Lemma format_f_same_rounded (x y : float) :
  Digits.same_rounded_to_6_decimals x y -> Format.format_f x = Format.format_f y.
Proof.
  intros [E [[s n] Hx]]. rewrite (format_f_rounded6 x s n Hx).
  rewrite E in Hx. now rewrite (format_f_rounded6 y s n Hx).
Qed.

Lemma hash_same_format (x1 y1 z1 x2 y2 z2 : float) :
  Format.format_f x1 = Format.format_f x2 ->
  Format.format_f y1 = Format.format_f y2 ->
  Format.format_f z1 = Format.format_f z2 ->
  Vector3.hash (Vector3.init x1 y1 z1) = Vector3.hash (Vector3.init x2 y2 z2).
Proof.
  intros Hx Hy Hz. unfold Vector3.init, Vector3.key_string. simpl.
  now rewrite Hx, Hy, Hz.
Qed.

(** C6, as the code has it: the key of a point is a function of its
    formatted coordinates alone; two points whose coordinates have the
    same ['%f'] representation share a key; in particular so do two points
    whose coordinates agree once rounded to six decimals (same sign, same
    rounded magnitude). *)
Theorem key_of_formatted_coordinates (x1 y1 z1 x2 y2 z2 : float) :
  Vector3.hash (Vector3.init x1 y1 z1)
  = MD5.hexdigest (Vector3.key_string x1 y1 z1)
  /\ (Format.format_f x1 = Format.format_f x2 ->
      Format.format_f y1 = Format.format_f y2 ->
      Format.format_f z1 = Format.format_f z2 ->
      Vector3.hash (Vector3.init x1 y1 z1) = Vector3.hash (Vector3.init x2 y2 z2))
  /\ (Digits.same_rounded_to_6_decimals x1 x2 ->
      Digits.same_rounded_to_6_decimals y1 y2 ->
      Digits.same_rounded_to_6_decimals z1 z2 ->
      Vector3.hash (Vector3.init x1 y1 z1) = Vector3.hash (Vector3.init x2 y2 z2)).
Proof.
  split; [reflexivity |]. split; [apply hash_same_format |].
  intros Hx Hy Hz. apply hash_same_format; now apply format_f_same_rounded.
Qed.

Lemma key_of_formatted_coordinates_witness :
  Vector3.hash (Vector3.init 1.0000001 (-2.5) 0)
  = Vector3.hash (Vector3.init 1.0000002 (-2.5) 0).
Proof.
  apply (proj2 (proj2 (key_of_formatted_coordinates
                         1.0000001 (-2.5) 0 1.0000002 (-2.5) 0)));
    (split; [vm_compute; reflexivity | vm_compute; eauto]).
Defined.

(** C6, the claim as stated fails: [0.0000004] and [0.0000006] differ
    only past the sixth decimal digit, but ['%f'] rounds, to [0.000000] and
    [0.000001], so the two points get different keys. *)
Lemma key_differs_past_6th_decimal :
  Digits.same_up_to_6th_decimal 4e-7 6e-7
  /\ Format.format_f 4e-7 = "0.000000"%string
  /\ Format.format_f 6e-7 = "0.000001"%string
  /\ Vector3.hash (Vector3.init 4e-7 0 0) = "b62a655c72c039834a29c24f48582d18"%string
  /\ Vector3.hash (Vector3.init 6e-7 0 0) = "8f71f3da2beca43b5ec539c698d1955e"%string
  /\ Vector3.hash (Vector3.init 4e-7 0 0) <> Vector3.hash (Vector3.init 6e-7 0 0).
Proof.
  split; [split; [vm_compute; reflexivity | vm_compute; eauto] |].
  split; [vm_compute; reflexivity |].
  split; [vm_compute; reflexivity |].
  split; [vm_compute; reflexivity |].
  split; [vm_compute; reflexivity |].
  vm_compute. discriminate.
Qed.

(** * Slicing at a plane: the sub sample *)

(** ** The size of the sample

    [int(length - length*.2)] is computed in floats.  What follows bounds
    one rounding: enough to see that the product is below [float(length)],
    so that the difference is a float that is neither negative nor
    infinite, whatever the length. *)

Section RoundingBounds.

Variables prec emax : Z.
Hypothesis prec_pos : 0 < prec.












End RoundingBounds.









(** ** The draws *)





Section PlaneFacts.

Context {num : Type} {sympy : Sympy num}.
Variable Axis : Type.
Variable distance : Axis -> triple num -> result float.


End PlaneFacts.



Example slice_fan_at_plane :
  fst (Model3D.slice_at_plane (sympy := Examples.machine) unit
         Examples.first_coordinate (fun k => k)
         (mkPlane (0, 0, 1) (0, 0, 1))%float tt tt (Examples.model_of Examples.fan))
  = Ok [((0, 0), (1, 1)); ((10, 10), (11, 11)); ((20, 20), (21, 21));
        ((30, 30), (31, 31))]%float.
Proof. vm_compute. reflexivity. Qed.

(** With a NaN in the plane sympy refuses the comparison, and the pass
    ends with its [TypeError]. *)
Example slice_fan_at_nan_plane :
  fst (Model3D.slice_at_plane (sympy := Examples.machine) unit
         Examples.first_coordinate (fun k => k)
         (mkPlane (0, 0, 1) (0, 0, nan))%float tt tt (Examples.model_of Examples.fan))
  = Raise (TypeError "Invalid NaN comparison").
Proof. vm_compute. reflexivity. Qed.

(** * More facts about binary64 arithmetic: the order, and subtraction *)

Lemma SFcompare_antisym x y :
  SFcompare y x = match SFcompare x y with Some c => Some (CompOpp c) | None => None end.
Proof.
  destruct x as [sx | sx | | sx mx ex], y as [sy | sy | | sy my ey]; simpl;
    try destruct sx; try destruct sy; try reflexivity.
  all: rewrite (Z.compare_antisym ex ey);
    change (Pos.compare_cont Eq my mx) with (Pos.compare my mx);
    change (Pos.compare_cont Eq mx my) with (Pos.compare mx my);
    rewrite (Pos.compare_antisym mx my);
    destruct (ex ?= ey); simpl; try reflexivity;
    destruct (mx ?= my)%positive; reflexivity.
Qed.

Lemma SFleb_trans x y z : SFleb x y = true -> SFleb y z = true -> SFleb x z = true.
Proof.
  unfold SFleb.
  destruct x as [sx | sx | | sx mx ex], y as [sy | sy | | sy my ey],
    z as [sz | sz | | sz mz ez]; simpl;
    try destruct sx; try destruct sy; try destruct sz; try congruence.
  all: change (Pos.compare_cont Eq mx my) with (Pos.compare mx my);
    change (Pos.compare_cont Eq my mz) with (Pos.compare my mz);
    change (Pos.compare_cont Eq mx mz) with (Pos.compare mx mz);
    destruct (Z.compare_spec ex ey), (Z.compare_spec ey ez), (Z.compare_spec ex ez);
    try lia; try congruence;
    destruct (Pos.compare_spec mx my), (Pos.compare_spec my mz), (Pos.compare_spec mx mz);
    simpl; try lia; congruence.
Qed.

Lemma SFltb_leb x y : SFltb x y = true -> SFleb x y = true.
Proof. unfold SFltb, SFleb. destruct (SFcompare x y) as [[]|]; congruence. Qed.

Lemma SFcompare_number x y :
  SFeqb x x = true -> SFeqb y y = true -> exists c, SFcompare x y = Some c.
Proof.
  destruct x as [sx | sx | | sx mx ex], y as [sy | sy | | sy my ey];
    try discriminate; intros _ _; simpl; eauto.
Qed.

Lemma SFleb_total x y :
  SFeqb x x = true -> SFeqb y y = true -> SFltb x y = false -> SFleb y x = true.
Proof.
  intros Hx Hy. destruct (SFcompare_number x y Hx Hy) as [c Hc].
  unfold SFltb, SFleb. rewrite (SFcompare_antisym x y), Hc.
  destruct c; simpl; congruence.
Qed.

Lemma SFleb_refl x : SFeqb x x = true -> SFleb x x = true.
Proof. unfold SFeqb, SFleb. destruct (SFcompare x x) as [[]|]; congruence. Qed.

Lemma float_ltb_asym (a b : float) : (a <? b)%float = true -> (b <? a)%float = false.
Proof.
  rewrite !FloatAxioms.ltb_spec. unfold SFltb.
  rewrite (SFcompare_antisym (Prim2SF a) (Prim2SF b)).
  destruct (SFcompare (Prim2SF a) (Prim2SF b)) as [[] |]; simpl; congruence.
Qed.

Lemma float_eqb_not_ltb (a b : float) :
  (a =? b)%float = true -> (a <? b)%float = false /\ (b <? a)%float = false.
Proof.
  rewrite !FloatAxioms.ltb_spec, FloatAxioms.eqb_spec. unfold SFltb, SFeqb.
  rewrite (SFcompare_antisym (Prim2SF a) (Prim2SF b)).
  destruct (SFcompare (Prim2SF a) (Prim2SF b)) as [[] |]; simpl; intros; split; congruence.
Qed.

Lemma float_leb_trans (a b c : float) :
  (a <=? b)%float = true -> (b <=? c)%float = true -> (a <=? c)%float = true.
Proof. rewrite !FloatAxioms.leb_spec. apply SFleb_trans. Qed.

Lemma float_ltb_leb (a b : float) : (a <? b)%float = true -> (a <=? b)%float = true.
Proof. rewrite FloatAxioms.ltb_spec, FloatAxioms.leb_spec. apply SFltb_leb. Qed.

Lemma float_not_ltb_leb (a b : float) :
  number a -> number b -> (a <? b)%float = false -> (b <=? a)%float = true.
Proof.
  unfold number. rewrite !FloatAxioms.eqb_spec, FloatAxioms.ltb_spec, FloatAxioms.leb_spec.
  apply SFleb_total.
Qed.

Lemma float_leb_refl (a : float) : number a -> (a <=? a)%float = true.
Proof.
  unfold number. rewrite FloatAxioms.eqb_spec, FloatAxioms.leb_spec. apply SFleb_refl.
Qed.

Lemma SFabs_binary_round_aux (prec emax : Z) s m e l :
  SFabs (binary_round_aux prec emax s m e l)
  = SFabs (binary_round_aux prec emax false m e l).
Proof.
  unfold binary_round_aux.
  destruct (shr_fexp prec emax m e l) as [mrs' e'].
  destruct (shr_fexp prec emax _ e' loc_Exact) as [mrs'' e''].
  destruct (shr_m mrs''); try reflexivity.
  destruct (e'' <=? emax - prec); reflexivity.
Qed.

Lemma SFabs_binary_normalize_opp (prec emax : Z) m e :
  SFabs (binary_normalize prec emax (- m) e false)
  = SFabs (binary_normalize prec emax m e false).
Proof.
  destruct m as [| m | m]; simpl; try reflexivity; unfold binary_round;
    destruct (shl_align m e _) as [mz ez];
    rewrite (SFabs_binary_round_aux prec emax true); reflexivity.
Qed.

Lemma SFabs_SFsub_comm (prec emax : Z) x y :
  SFabs (SFsub prec emax x y) = SFabs (SFsub prec emax y x).
Proof.
  destruct x as [[] | [] | | sx mx ex], y as [[] | [] | | sy my ey]; try reflexivity.
  simpl. rewrite (Z.min_comm ey ex), <- SFabs_binary_normalize_opp.
  f_equal. f_equal. lia.
Qed.

Lemma float_abs_sub_comm (a b : float) : abs (a - b) = abs (b - a).
Proof.
  apply Prim2SF_inj. rewrite !FloatAxioms.abs_spec, !FloatAxioms.sub_spec.
  apply SFabs_SFsub_comm.
Qed.

Lemma SFsub_diag (prec emax : Z) x :
  SFabs (SFsub prec emax x x)
  = match x with
    | S754_zero _ | S754_finite _ _ _ => S754_zero false
    | _ => S754_nan
    end.
Proof.
  destruct x as [[] | [] | | s m e]; try reflexivity.
  simpl. now rewrite Z.sub_diag.
Qed.

Lemma float_close_to_itself (x : float) :
  (abs (x - x) <? DIFFERENCE_LIMIT)%float = finite x.
Proof.
  rewrite FloatAxioms.ltb_spec, FloatAxioms.abs_spec, FloatAxioms.sub_spec.
  unfold SF64sub, finite. rewrite SFsub_diag.
  destruct (Prim2SF x); vm_compute; reflexivity.
Qed.

(** * [Vector3.__eq__] *)

(** [__eq__] is symmetric: the three distances are the same read from
    either point. *)
Theorem Vector3_eq_symmetric (a b : Vector3.t) : Vector3.eq a b = Vector3.eq b a.
Proof.
  unfold Vector3.eq.
  now rewrite (float_abs_sub_comm (Vector3.x a)), (float_abs_sub_comm (Vector3.y a)),
    (float_abs_sub_comm (Vector3.z a)).
Qed.

(** A point equals itself exactly when its three coordinates are finite:
    an infinite or NaN coordinate makes the point differ from itself. *)
Theorem Vector3_eq_reflexive_iff_finite (v : Vector3.t) :
  Vector3.eq v v
  = finite (Vector3.x v) && finite (Vector3.y v) && finite (Vector3.z v).
Proof.
  unfold Vector3.eq. now rewrite !float_close_to_itself.
Qed.

(** * How many points a triangle gives *)

Lemma points_at_z_first_length (self : Triangle.t) (targetz : float) :
  (length (Spec.points_at_z_first self targetz) <= 2)%nat.
Proof.
  unfold Spec.points_at_z_first, Spec.all_edge_points, Spec.edge_points,
    Spec.first_vertex_point, Spec.vertex_point, Spec.strictly_straddles.
  set (z0 := Vector3.z (deref (Triangle.vertex0 self))).
  set (z1 := Vector3.z (deref (Triangle.vertex1 self))).
  set (z2 := Vector3.z (deref (Triangle.vertex2 self))).
  pose proof (float_ltb_asym targetz z0) as A0.
  pose proof (float_ltb_asym targetz z1) as A1.
  pose proof (float_ltb_asym targetz z2) as A2.
  pose proof (float_eqb_not_ltb z0 targetz) as E0.
  pose proof (float_eqb_not_ltb z1 targetz) as E1.
  pose proof (float_eqb_not_ltb z2 targetz) as E2.
  destruct (targetz <? z0)%float, (z0 <? targetz)%float, (z0 =? targetz)%float;
    try (discriminate (A0 eq_refl)); try (destruct (E0 eq_refl); discriminate);
    clear A0 E0;
    destruct (targetz <? z1)%float, (z1 <? targetz)%float, (z1 =? targetz)%float;
    try (discriminate (A1 eq_refl)); try (destruct (E1 eq_refl); discriminate);
    clear A1 E1;
    destruct (targetz <? z2)%float, (z2 <? targetz)%float, (z2 =? targetz)%float;
    try (discriminate (A2 eq_refl)); try (destruct (E2 eq_refl); discriminate);
    simpl; lia.
Qed.

(** [find_interpolated_points_at_z] never returns more than two points:
    at most two edges can straddle the plane, and a vertex on the plane
    rules out the two edges that meet in it. *)
Theorem find_interpolated_points_at_z_at_most_two (self : Triangle.t) (targetz : float) :
  exists points,
    Triangle.find_interpolated_points_at_z self targetz = Ok points
    /\ (length points <= 2)%nat.
Proof.
  eexists. split; [apply find_interpolated_points_at_z_eq |].
  apply points_at_z_first_length.
Qed.

(** * [update_extents], as a function of the bounds and the sums *)

Lemma widen_x_run c T V N nm lo hi y0 y1 z0 z1 sx sy sz :
  Model3D.widen c Model3D.xmin Model3D.xmax Model3D.set_xmin Model3D.set_xmax
    (Model3D.mk T V N nm (Some lo) (Some hi) y0 y1 z0 z1 sx sy sz)
  = (Ok tt, Model3D.mk T V N nm (Some (fst (widen1 c (lo, hi))))
              (Some (snd (widen1 c (lo, hi)))) y0 y1 z0 z1 sx sy sz).
Proof.
  unfold Model3D.widen, widen1, bind, gets, lift, when, modify, ret. simpl.
  destruct (c <? lo)%float; simpl; [reflexivity |].
  destruct (hi <? c)%float; reflexivity.
Qed.

Lemma widen_y_run c T V N nm x0 x1 lo hi z0 z1 sx sy sz :
  Model3D.widen c Model3D.ymin Model3D.ymax Model3D.set_ymin Model3D.set_ymax
    (Model3D.mk T V N nm x0 x1 (Some lo) (Some hi) z0 z1 sx sy sz)
  = (Ok tt, Model3D.mk T V N nm x0 x1 (Some (fst (widen1 c (lo, hi))))
              (Some (snd (widen1 c (lo, hi)))) z0 z1 sx sy sz).
Proof.
  unfold Model3D.widen, widen1, bind, gets, lift, when, modify, ret. simpl.
  destruct (c <? lo)%float; simpl; [reflexivity |].
  destruct (hi <? c)%float; reflexivity.
Qed.

Lemma widen_z_run c T V N nm x0 x1 y0 y1 lo hi sx sy sz :
  Model3D.widen c Model3D.zmin Model3D.zmax Model3D.set_zmin Model3D.set_zmax
    (Model3D.mk T V N nm x0 x1 y0 y1 (Some lo) (Some hi) sx sy sz)
  = (Ok tt, Model3D.mk T V N nm x0 x1 y0 y1 (Some (fst (widen1 c (lo, hi))))
              (Some (snd (widen1 c (lo, hi)))) sx sy sz).
Proof.
  unfold Model3D.widen, widen1, bind, gets, lift, when, modify, ret. simpl.
  destruct (c <? lo)%float; simpl; [reflexivity |].
  destruct (hi <? c)%float; reflexivity.
Qed.

Lemma update_extents_run t T V N nm xl xh yl yh zl zh sx sy sz :
  Model3D.update_extents t
    (Model3D.mk T V N nm (Some xl) (Some xh) (Some yl) (Some yh) (Some zl) (Some zh) sx sy sz)
  = (Ok tt,
     Model3D.mk T V N nm
       (Some (fst (widen3 t Vector3.x (xl, xh)))) (Some (snd (widen3 t Vector3.x (xl, xh))))
       (Some (fst (widen3 t Vector3.y (yl, yh)))) (Some (snd (widen3 t Vector3.y (yl, yh))))
       (Some (fst (widen3 t Vector3.z (zl, zh)))) (Some (snd (widen3 t Vector3.z (zl, zh))))
       (sx + sum3 t Vector3.x) (sy + sum3 t Vector3.y) (sz + sum3 t Vector3.z)).
Proof.
  unfold Model3D.update_extents. cbn [for_each].
  unfold bind, gets, when, modify, ret.
  unfold Model3D.set_mx, Model3D.set_my, Model3D.set_mz.
  cbn [Model3D.xmin Model3D.mx Model3D.my Model3D.mz
       Model3D.triangles Model3D.vertices Model3D.normals Model3D.name
       Model3D.xmax Model3D.ymin Model3D.ymax Model3D.zmin Model3D.zmax].
  repeat (first [rewrite widen_x_run | rewrite widen_y_run | rewrite widen_z_run];
          cbv beta iota).
  rewrite <- !surjective_pairing. reflexivity.
Qed.

Lemma update_extents_first t T V N nm x1 y0 y1 z0 z1 sx sy sz :
  Model3D.update_extents t (Model3D.mk T V N nm None x1 y0 y1 z0 z1 sx sy sz)
  = Model3D.update_extents t
      (Model3D.mk T V N nm
         (Some (Vector3.x (deref (Triangle.vertex0 t))))
         (Some (Vector3.x (deref (Triangle.vertex0 t))))
         (Some (Vector3.y (deref (Triangle.vertex0 t))))
         (Some (Vector3.y (deref (Triangle.vertex0 t))))
         (Some (Vector3.z (deref (Triangle.vertex0 t))))
         (Some (Vector3.z (deref (Triangle.vertex0 t))))
         0%float 0%float 0%float).
Proof. reflexivity. Qed.

Lemma update_extents_updated (t : Triangle.t) (s : Model3D.t) :
  Model3D.xmin s = None \/ seeded s ->
  Model3D.update_extents t s = (Ok tt, updated t s).
Proof.
  destruct s as [T V N nm x0 x1 y0 y1 z0 z1 sx sy sz].
  intros [Hn | (H1 & H2 & H3 & H4 & H5 & H6)]; simpl in *.
  - subst x0. rewrite update_extents_first, update_extents_run. reflexivity.
  - destruct H1 as [? ->], H2 as [? ->], H3 as [? ->], H4 as [? ->],
      H5 as [? ->], H6 as [? ->].
    rewrite update_extents_run. reflexivity.
Qed.

Lemma shaped_ready (s : Model3D.t) : shaped s -> Model3D.xmin s = None \/ seeded s.
Proof.
  intros [(_ & Hu & _) | (_ & Hs)]; [left | right; exact Hs].
  unfold unset, Model3D.extents in Hu. congruence.
Qed.

Lemma Triangle_init_rejection p1 p2 p3 norm fresh e :
  Triangle.init p1 p2 p3 norm fresh = Raise e -> rejection e.
Proof.
  unfold Triangle.init, rejection.
  destruct (_ || _); [intros [= <-]; auto |].
  destruct (Edge.contains _ _); [intros [= <-]; auto |].
  destruct norm as [n |]; [discriminate |].
  unfold Normal.init. destruct (_ =? 0)%float; simpl; [intros [= <-]; auto | discriminate].
Qed.

(** [add_triangle] on a shaped model, case by case. *)
Lemma add_triangle_cases (v1 v2 v3 : ref Vector3.t) (norm : option (ref Normal.t))
    (fresh : nat) (m : Model3D.t) :
  shaped m ->
  let V3 := pooled v3 (pooled v2 (pooled v1 (Model3D.vertices m))) in
  (exists e, rejection e
     /\ Model3D.add_triangle v1 v2 v3 norm fresh m
        = (Raise e, Model3D.set_vertices (fun _ => V3) m))
  \/ (exists t N',
        (N' = Model3D.normals m
         \/ Model3D.normals m !! Vector3.hash (deref (Triangle.norm t)) = None
            /\ N' = <[Vector3.hash (deref (Triangle.norm t)) := Triangle.norm t]>
                      (Model3D.normals m))
        /\ V3 !! Vector3.hash (deref v1) = Some (Triangle.vertex0 t)
        /\ V3 !! Vector3.hash (deref v2) = Some (Triangle.vertex1 t)
        /\ V3 !! Vector3.hash (deref v3) = Some (Triangle.vertex2 t)
        /\ Model3D.add_triangle v1 v2 v3 norm fresh m
           = (Ok tt,
              updated t
                (Model3D.set_triangles (fun l => l ++ [t])
                   (Model3D.set_normals (fun _ => N')
                      (Model3D.set_vertices (fun _ => V3) m))))).
Proof.
  intros Hm V3. apply shaped_ready in Hm.
  destruct (add_triangle_run v1 v2 v3 norm fresh m) as (p1 & p2 & p3 & E1 & E2 & E3 & Hrun).
  fold V3 in E1, E2, E3, Hrun. rewrite Hrun. clear Hrun.
  destruct (Triangle.init p1 p2 p3 norm fresh) as [triangle | e] eqn:Hinit.
  - right. destruct (Triangle_init_ok _ _ _ _ _ _ Hinit) as [Hvs Hnorm].
    cbv zeta.
    set (n := match norm with Some n => n | None => Triangle.norm triangle end).
    assert (Hn : Triangle.norm triangle = n).
    { subst n. destruct norm as [n0 |]; [| reflexivity]. now apply (Hnorm n0). }
    destruct (Model3D.normals m !! Vector3.hash (deref n)) as [q |] eqn:En.
    + exists (Triangle.set_norm q triangle), (Model3D.normals m).
      unfold Triangle.vertex0, Triangle.vertex1, Triangle.vertex2. simpl.
      rewrite Hvs. simpl.
      refine (conj (or_introl eq_refl) (conj E1 (conj E2 (conj E3 _)))).
      rewrite update_extents_updated by exact Hm.
      destruct m; reflexivity.
    + exists triangle, (<[Vector3.hash (deref n) := n]> (Model3D.normals m)).
      unfold Triangle.vertex0, Triangle.vertex1, Triangle.vertex2.
      rewrite Hvs, Hn. simpl.
      refine (conj (or_intror (conj En eq_refl)) (conj E1 (conj E2 (conj E3 _)))).
      rewrite update_extents_updated by exact Hm.
      reflexivity.
  - left. exists e. split; [exact (Triangle_init_rejection _ _ _ _ _ _ Hinit) | reflexivity].
Qed.

Lemma updated_pools (t : Triangle.t) (s : Model3D.t) : pools (updated t s) = pools s.
Proof.
  unfold updated. destruct (Model3D.extents s) as [[[[xl|] [xh|]] [[yl|] [yh|]]] [[zl|] [zh|]]];
    reflexivity.
Qed.

Lemma updated_seeded (t : Triangle.t) (s : Model3D.t) : seeded (updated t s).
Proof.
  unfold updated. destruct (Model3D.extents s) as [[[[xl|] [xh|]] [[yl|] [yh|]]] [[zl|] [zh|]]];
    unfold seeded; simpl; repeat split; eauto.
Qed.

Lemma add_triangle_keeps_shaped (v1 v2 v3 : ref Vector3.t) (norm : option (ref Normal.t))
    (fresh : nat) (m : Model3D.t) :
  shaped m -> shaped (snd (Model3D.add_triangle v1 v2 v3 norm fresh m)).
Proof.
  intros Hm.
  destruct (add_triangle_cases v1 v2 v3 norm fresh m Hm)
    as [(e & _ & ->) | (t & N' & _ & _ & _ & _ & ->)].
  - exact Hm.
  - right. split; [| apply updated_seeded].
    destruct (pools_inv _ _ (updated_pools t
      (Model3D.set_triangles (fun l => l ++ [t])
         (Model3D.set_normals (fun _ => N')
            (Model3D.set_vertices
               (fun _ => pooled v3 (pooled v2 (pooled v1 (Model3D.vertices m)))) m)))))
      as (HT & _ & _).
    simpl snd. rewrite HT. simpl. intros E. now apply app_eq_nil in E as [_ [=]].
Qed.

Lemma reachable_shaped (P : Vector3.t -> Prop) (m : Model3D.t) :
  reachable P m -> shaped m.
Proof.
  induction 1 as [| v1 v2 v3 norm fresh m _ _ _ _ IH].
  - left. repeat split.
  - now apply add_triangle_keeps_shaped.
Qed.

(** * What [add_triangle] can do to a model a program holds *)

(** On every model built from a new one by [add_triangle] calls, a further
    call either returns or raises one of the three [ValueError]s of the
    constructors: no [KeyError] from the pool lookups, no [TypeError] from
    comparing a coordinate with an extent that is still [None]. *)
Theorem add_triangle_outcome (P : Vector3.t -> Prop) (v1 v2 v3 : ref Vector3.t)
    (norm : option (ref Normal.t)) (fresh : nat) (m : Model3D.t) :
  reachable P m ->
  fst (Model3D.add_triangle v1 v2 v3 norm fresh m) = Ok tt
  \/ exists e, rejection e
               /\ fst (Model3D.add_triangle v1 v2 v3 norm fresh m) = Raise e.
Proof.
  intros Hm. apply reachable_shaped in Hm.
  destruct (add_triangle_cases v1 v2 v3 norm fresh m Hm)
    as [(e & He & ->) | (t & N' & _ & _ & _ & _ & ->)]; [right | left; reflexivity].
  exists e. split; [exact He | reflexivity].
Qed.

Lemma add_triangle_outcome_witness :
  fst (Model3D.add_triangle (Examples.vertex 1 0 0 0) (Examples.vertex 2 2 0 0)
         (Examples.vertex 3 0 2 2) None 9 (Examples.model_of Examples.fan)) = Ok tt
  \/ exists e, rejection e
               /\ fst (Model3D.add_triangle (Examples.vertex 1 0 0 0) (Examples.vertex 2 2 0 0)
                         (Examples.vertex 3 0 2 2) None 9 (Examples.model_of Examples.fan))
                  = Raise e.
Proof.
  apply (add_triangle_outcome (fun _ => True)).
  cbv beta iota delta [Examples.model_of Examples.fan fold_left].
  repeat (apply reachable_add; [exact I | exact I | exact I |]).
  apply reachable_init.
Defined.

Lemma fold_add_reachable (P : Vector3.t -> Prop) (l : list Triangle.t) :
  Forall (fun t => Forall P (corners t)) l ->
  forall m, reachable P m ->
  reachable P (fold_left (fun m t =>
                 snd (Model3D.add_triangle (Triangle.vertex0 t) (Triangle.vertex1 t)
                        (Triangle.vertex2 t) (Some (Triangle.norm t)) 0 m)) l m).
Proof.
  induction 1 as [| t l Ht _ IH]; intros m Hm; simpl; [exact Hm |].
  apply IH. unfold corners in Ht.
  apply Forall_cons in Ht as [H0 Ht]. apply Forall_cons in Ht as [H1 Ht].
  apply Forall_cons in Ht as [H2 _]. now apply reachable_add.
Qed.

Lemma model_of_reachable (P : Vector3.t -> Prop) (l : list Triangle.t) :
  Forall (fun t => Forall P (corners t)) l -> reachable P (Examples.model_of l).
Proof. intros H. apply fold_add_reachable; [exact H | apply reachable_init]. Qed.

Lemma model_of_fan_reachable : reachable (fun _ => True) (Examples.model_of Examples.fan).
Proof.
  apply model_of_reachable. repeat constructor.
Qed.

(** An accepted insertion appends exactly one triangle, at the end of the
    list; its three vertices are the instances the vertex pool holds under
    the keys of the arguments, and when a normal was passed its normal is
    the instance the normal pool holds under that normal's key. *)
Theorem add_triangle_accepted (v1 v2 v3 : ref Vector3.t) (norm : option (ref Normal.t))
    (fresh : nat) (m : Model3D.t) :
  fst (Model3D.add_triangle v1 v2 v3 norm fresh m) = Ok tt ->
  let m' := snd (Model3D.add_triangle v1 v2 v3 norm fresh m) in
  exists t,
    Model3D.triangles m' = Model3D.triangles m ++ [t]
    /\ Model3D.len m' = S (Model3D.len m)
    /\ Model3D.vertices m' !! Vector3.hash (deref v1) = Some (Triangle.vertex0 t)
    /\ Model3D.vertices m' !! Vector3.hash (deref v2) = Some (Triangle.vertex1 t)
    /\ Model3D.vertices m' !! Vector3.hash (deref v3) = Some (Triangle.vertex2 t)
    /\ forall n, norm = Some n ->
         Model3D.normals m' !! Vector3.hash (deref n) = Some (Triangle.norm t).
Proof.
  intros Hok m'. subst m'.
  destruct (add_triangle_run v1 v2 v3 norm fresh m) as (p1 & p2 & p3 & E1 & E2 & E3 & Hrun).
  rewrite Hrun in *. clear Hrun.
  destruct (Triangle.init p1 p2 p3 norm fresh) as [triangle | e] eqn:Hinit; [| discriminate].
  destruct (Triangle_init_ok _ _ _ _ _ _ Hinit) as [Hvs Hnorm].
  cbv zeta in *.
  destruct (Model3D.normals m !! _) as [q |] eqn:En;
    match goal with |- context [snd (Model3D.update_extents ?t ?s)] =>
      destruct (pools_inv _ _ (proj1 (quiet_update_extents t s))) as (HT & HV & HN);
      exists t
    end;
    unfold Model3D.len; rewrite HT, HV, HN;
    unfold Triangle.vertex0, Triangle.vertex1, Triangle.vertex2; simpl; rewrite Hvs; simpl;
    (split; [reflexivity |]); (split; [rewrite length_app; simpl; lia |]);
    (split; [exact E1 |]); (split; [exact E2 |]); (split; [exact E3 |]);
    intros n ->.
  - exact En.
  - rewrite (Hnorm n eq_refl). apply lookup_insert_eq.
Qed.

Lemma add_triangle_accepted_witness :
  let m' := snd (Model3D.add_triangle (Examples.vertex 1 0 0 0) (Examples.vertex 2 2 0 0)
                   (Examples.vertex 3 0 2 2) (Some Examples.up) 9 Model3D.init) in
  exists t,
    Model3D.triangles m' = Model3D.triangles Model3D.init ++ [t]
    /\ Model3D.len m' = S (Model3D.len Model3D.init)
    /\ Model3D.vertices m' !! Vector3.hash (deref (Examples.vertex 1 0 0 0))
       = Some (Triangle.vertex0 t)
    /\ Model3D.vertices m' !! Vector3.hash (deref (Examples.vertex 2 2 0 0))
       = Some (Triangle.vertex1 t)
    /\ Model3D.vertices m' !! Vector3.hash (deref (Examples.vertex 3 0 2 2))
       = Some (Triangle.vertex2 t)
    /\ forall n, Some Examples.up = Some n ->
         Model3D.normals m' !! Vector3.hash (deref n) = Some (Triangle.norm t).
Proof.
  apply (add_triangle_accepted (Examples.vertex 1 0 0 0) (Examples.vertex 2 2 0 0)
           (Examples.vertex 3 0 2 2) (Some Examples.up) 9 Model3D.init).
  vm_compute. reflexivity.
Defined.

(** * The queries on a model a program holds *)

Lemma centre_seeded (m : Model3D.t) : seeded m -> exists c, Model3D.centre m = Ok c.
Proof.
  intros (H1 & H2 & H3 & H4 & H5 & H6). unfold Model3D.centre.
  destruct H1 as [? ->], H2 as [? ->], H3 as [? ->], H4 as [? ->],
    H5 as [? ->], H6 as [? ->]. simpl. eauto.
Qed.

(** On every model built from a new one by [add_triangle] calls: as long
    as no triangle was accepted, every extent is [None], [centre] raises a
    [TypeError], [mean_point] raises a [ZeroDivisionError] and [stats]
    raises; once a triangle was accepted, every extent is a float and the
    three queries return, [stats] with the counts of the triangle list and
    of the two pools. *)
Theorem queries_on_reachable (P : Vector3.t -> Prop) (m : Model3D.t) :
  reachable P m ->
  (Model3D.len m = 0%nat
   /\ unset m
   /\ Model3D.centre m = Raise (TypeError "unsupported operand type(s) for +")
   /\ Model3D.mean_point m = Raise (ZeroDivisionError "float division by zero")
   /\ Model3D.stats m = Raise (TypeError "unsupported operand type(s) for +"))
  \/ ((0 < Model3D.len m)%nat
      /\ seeded m
      /\ exists c mp st,
           Model3D.centre m = Ok c
           /\ Model3D.mean_point m = Ok mp
           /\ Model3D.stats m = Ok st
           /\ Model3D.stats_facets st = Model3D.len m
           /\ Model3D.stats_vertices st = size (Model3D.vertices m)
           /\ Model3D.stats_normals st = size (Model3D.normals m)
           /\ Model3D.stats_centre st = c
           /\ Model3D.stats_meanpoint st = mp).
Proof.
  intros Hm. apply reachable_shaped in Hm.
  destruct Hm as [(HT & Hu & _) | (HT & Hs)]; [left | right].
  - split; [unfold Model3D.len; now rewrite HT |]. split; [exact Hu |].
    destruct m as [T V N nm x0 x1 y0 y1 z0 z1 sx sy sz].
    unfold unset, Model3D.extents in Hu. simpl in Hu, HT.
    injection Hu as -> -> -> -> -> ->. subst T.
    split; [reflexivity |]. split; reflexivity.
  - assert (Hlen : (0 < Model3D.len m)%nat).
    { unfold Model3D.len. destruct (Model3D.triangles m); [congruence | simpl; lia]. }
    split; [exact Hlen |]. split; [exact Hs |].
    destruct (centre_seeded m Hs) as [c Hc].
    assert (Hmp : exists mp, Model3D.mean_point m = Ok mp).
    { unfold Model3D.mean_point. unfold Model3D.len in Hlen.
      destruct (3 * length (Model3D.triangles m))%nat eqn:E; [lia |]. simpl. eauto. }
    destruct Hmp as [mp Hmp].
    eexists c, mp, _. unfold Model3D.stats. rewrite Hc, Hmp. simpl.
    repeat split.
Qed.

Lemma queries_on_reachable_witness :
  (Model3D.len (Examples.model_of Examples.fan) = 0%nat
   /\ unset (Examples.model_of Examples.fan)
   /\ Model3D.centre (Examples.model_of Examples.fan)
      = Raise (TypeError "unsupported operand type(s) for +")
   /\ Model3D.mean_point (Examples.model_of Examples.fan)
      = Raise (ZeroDivisionError "float division by zero")
   /\ Model3D.stats (Examples.model_of Examples.fan)
      = Raise (TypeError "unsupported operand type(s) for +"))
  \/ ((0 < Model3D.len (Examples.model_of Examples.fan))%nat
      /\ seeded (Examples.model_of Examples.fan)
      /\ exists c mp st,
           Model3D.centre (Examples.model_of Examples.fan) = Ok c
           /\ Model3D.mean_point (Examples.model_of Examples.fan) = Ok mp
           /\ Model3D.stats (Examples.model_of Examples.fan) = Ok st
           /\ Model3D.stats_facets st = Model3D.len (Examples.model_of Examples.fan)
           /\ Model3D.stats_vertices st = size (Model3D.vertices (Examples.model_of Examples.fan))
           /\ Model3D.stats_normals st = size (Model3D.normals (Examples.model_of Examples.fan))
           /\ Model3D.stats_centre st = c
           /\ Model3D.stats_meanpoint st = mp).
Proof.
  exact (queries_on_reachable (fun _ => True) (Examples.model_of Examples.fan)
           model_of_fan_reachable).
Defined.

Example fan_queries :
  Model3D.extents (Examples.model_of Examples.fan)
  = ((Some 0, Some 42), (Some 0, Some 2), (Some 0, Some 2))%float
  /\ Model3D.centre (Examples.model_of Examples.fan) = Ok (21, 1, 1)%float
  /\ Model3D.mean_point (Examples.model_of Examples.fan)
     = Ok (310 / 15, 10 / 15, 10 / 15)%float.
Proof. vm_compute. repeat split; reflexivity. Qed.

Lemma updated_sums_seeded (t : Triangle.t) (s : Model3D.t) :
  seeded s ->
  (Model3D.mx (updated t s), Model3D.my (updated t s), Model3D.mz (updated t s))
  = (Model3D.mx s + sum3 t Vector3.x, Model3D.my s + sum3 t Vector3.y,
     Model3D.mz s + sum3 t Vector3.z)%float.
Proof.
  intros (H1 & H2 & H3 & H4 & H5 & H6). unfold updated, Model3D.extents.
  destruct H1 as [? ->], H2 as [? ->], H3 as [? ->], H4 as [? ->],
    H5 as [? ->], H6 as [? ->]. reflexivity.
Qed.

Lemma updated_sums_unset (t : Triangle.t) (s : Model3D.t) :
  unset s ->
  (Model3D.mx (updated t s), Model3D.my (updated t s), Model3D.mz (updated t s))
  = (0 + sum3 t Vector3.x, 0 + sum3 t Vector3.y, 0 + sum3 t Vector3.z)%float.
Proof. unfold unset, updated. intros ->. reflexivity. Qed.

Lemma running_sum_snoc (coord : Vector3.t -> float) (l : list Triangle.t) (t : Triangle.t) :
  running_sum coord (l ++ [t]) = (running_sum coord l + sum3 t coord)%float.
Proof. unfold running_sum. now rewrite fold_left_app. Qed.

Lemma running_sums_reachable (P : Vector3.t -> Prop) (m : Model3D.t) :
  reachable P m ->
  (Model3D.mx m, Model3D.my m, Model3D.mz m)
  = (running_sum Vector3.x (Model3D.triangles m),
     running_sum Vector3.y (Model3D.triangles m),
     running_sum Vector3.z (Model3D.triangles m)).
Proof.
  induction 1 as [| v1 v2 v3 norm fresh m _ _ _ Hm IH]; [reflexivity |].
  pose proof (reachable_shaped P m Hm) as Hshape.
  destruct (add_triangle_cases v1 v2 v3 norm fresh m Hshape)
    as [(e & _ & ->) | (t & N' & _ & _ & _ & _ & ->)]; [exact IH |].
  simpl snd.
  match goal with |- context [updated t ?s] =>
    destruct (pools_inv _ _ (updated_pools t s)) as (-> & _ & _); set (s5 := s)
  end.
  simpl (Model3D.triangles s5). rewrite !running_sum_snoc.
  destruct Hshape as [(HT & Hu & Hz) | (_ & Hs)].
  - rewrite (updated_sums_unset t s5) by exact Hu. now rewrite HT.
  - rewrite (updated_sums_seeded t s5) by exact Hs.
    change (Model3D.mx s5) with (Model3D.mx m).
    change (Model3D.my s5) with (Model3D.my m).
    change (Model3D.mz s5) with (Model3D.mz m).
    injection IH as -> -> ->. reflexivity.
Qed.

(** On every model built from a new one by [add_triangle] calls the
    running sums are the sums of the three vertices of every stored
    triangle, added triangle by triangle in list order, a vertex shared by
    several triangles counted once for each; [mean_point] divides them by
    three times the number of triangles, and raises on the model without
    triangles. *)
Theorem mean_point_on_reachable (P : Vector3.t -> Prop) (m : Model3D.t) :
  reachable P m ->
  Model3D.mx m = running_sum Vector3.x (Model3D.triangles m)
  /\ Model3D.my m = running_sum Vector3.y (Model3D.triangles m)
  /\ Model3D.mz m = running_sum Vector3.z (Model3D.triangles m)
  /\ Model3D.mean_point m
     = match Model3D.len m with
       | O => Raise (ZeroDivisionError "float division by zero")
       | S _ =>
           Ok (running_sum Vector3.x (Model3D.triangles m)
                 / Model3D.float_of_nat (3 * Model3D.len m),
               running_sum Vector3.y (Model3D.triangles m)
                 / Model3D.float_of_nat (3 * Model3D.len m),
               running_sum Vector3.z (Model3D.triangles m)
                 / Model3D.float_of_nat (3 * Model3D.len m))%float
       end.
Proof.
  intros Hm. pose proof (running_sums_reachable P m Hm) as H.
  injection H as Hx Hy Hz. refine (conj Hx (conj Hy (conj Hz _))).
  unfold Model3D.mean_point, Model3D.len. rewrite Hx, Hy, Hz.
  destruct (length (Model3D.triangles m)) as [| n] eqn:E; [reflexivity |].
  replace (3 * S n)%nat with (S (2 + 3 * n))%nat by lia. reflexivity.
Qed.

Lemma mean_point_on_reachable_witness :
  Model3D.mx (Examples.model_of Examples.fan)
  = running_sum Vector3.x (Model3D.triangles (Examples.model_of Examples.fan))
  /\ Model3D.my (Examples.model_of Examples.fan)
     = running_sum Vector3.y (Model3D.triangles (Examples.model_of Examples.fan))
  /\ Model3D.mz (Examples.model_of Examples.fan)
     = running_sum Vector3.z (Model3D.triangles (Examples.model_of Examples.fan))
  /\ Model3D.mean_point (Examples.model_of Examples.fan)
     = match Model3D.len (Examples.model_of Examples.fan) with
       | O => Raise (ZeroDivisionError "float division by zero")
       | S _ =>
           Ok (running_sum Vector3.x (Model3D.triangles (Examples.model_of Examples.fan))
                 / Model3D.float_of_nat (3 * Model3D.len (Examples.model_of Examples.fan)),
               running_sum Vector3.y (Model3D.triangles (Examples.model_of Examples.fan))
                 / Model3D.float_of_nat (3 * Model3D.len (Examples.model_of Examples.fan)),
               running_sum Vector3.z (Model3D.triangles (Examples.model_of Examples.fan))
                 / Model3D.float_of_nat (3 * Model3D.len (Examples.model_of Examples.fan)))%float
       end.
Proof.
  exact (mean_point_on_reachable (fun _ => True) (Examples.model_of Examples.fan)
           model_of_fan_reachable).
Defined.

(** * The sizes of the pools *)

Lemma pooled3_size (v1 v2 v3 : ref Vector3.t) (V : gmap string (ref Vector3.t)) :
  (size (pooled v3 (pooled v2 (pooled v1 V))) <= size V + 3)%nat.
Proof.
  pose proof (pooled_size v1 V). pose proof (pooled_size v2 (pooled v1 V)).
  pose proof (pooled_size v3 (pooled v2 (pooled v1 V))). lia.
Qed.

Lemma add_triangle_pool_step (v1 v2 v3 : ref Vector3.t) (norm : option (ref Normal.t))
    (fresh : nat) (m : Model3D.t) :
  shaped m ->
  let m' := snd (Model3D.add_triangle v1 v2 v3 norm fresh m) in
  (size (Model3D.vertices m') <= size (Model3D.vertices m) + 3)%nat
  /\ (size (Model3D.normals m') <= size (Model3D.normals m) + 1)%nat
  /\ ((size (Model3D.normals m) <= Model3D.len m)%nat ->
      (size (Model3D.normals m') <= Model3D.len m')%nat).
Proof.
  intros Hshape m'. subst m'.
  destruct (add_triangle_cases v1 v2 v3 norm fresh m Hshape)
    as [(e & _ & ->) | (t & N' & HN' & _ & _ & _ & ->)]; simpl snd.
  - simpl. split; [apply pooled3_size |]. split; [lia | auto].
  - match goal with |- context [updated t ?s] =>
      destruct (pools_inv _ _ (updated_pools t s)) as (HT & HV & HN)
    end.
    unfold Model3D.len. rewrite HT, HV, HN. simpl. rewrite length_app. simpl.
    split; [apply pooled3_size |].
    destruct HN' as [-> | [Hnone ->]].
    + split; lia.
    + rewrite map_size_insert_None by exact Hnone. split; lia.
Qed.

Lemma normals_at_most_triangles (P : Vector3.t -> Prop) (m : Model3D.t) :
  reachable P m -> (size (Model3D.normals m) <= Model3D.len m)%nat.
Proof.
  induction 1 as [| v1 v2 v3 norm fresh m _ _ _ Hm IH].
  - simpl. rewrite map_size_empty. lia.
  - apply (add_triangle_pool_step v1 v2 v3 norm fresh m (reachable_shaped P m Hm)), IH.
Qed.

(** A call of [add_triangle], accepted or not, adds at most three entries
    to the vertex pool and at most one to the normal pool; and on every
    model built from a new one by such calls the normal pool has at most as
    many entries as there are triangles. *)
Theorem pool_sizes (P : Vector3.t -> Prop) (v1 v2 v3 : ref Vector3.t)
    (norm : option (ref Normal.t)) (fresh : nat) (m : Model3D.t) :
  reachable P m ->
  let m' := snd (Model3D.add_triangle v1 v2 v3 norm fresh m) in
  (size (Model3D.vertices m') <= size (Model3D.vertices m) + 3)%nat
  /\ (size (Model3D.normals m') <= size (Model3D.normals m) + 1)%nat
  /\ (size (Model3D.normals m) <= Model3D.len m)%nat
  /\ (size (Model3D.normals m') <= Model3D.len m')%nat.
Proof.
  intros Hm m'. subst m'.
  pose proof (normals_at_most_triangles P m Hm) as Hn.
  destruct (add_triangle_pool_step v1 v2 v3 norm fresh m (reachable_shaped P m Hm))
    as (HV & HN & Hlen).
  exact (conj HV (conj HN (conj Hn (Hlen Hn)))).
Qed.

Lemma pool_sizes_witness :
  let m' := snd (Model3D.add_triangle (Examples.vertex 1 0 0 0) (Examples.vertex 2 2 0 0)
                   (Examples.vertex 3 0 2 2) None 9 (Examples.model_of Examples.fan)) in
  (size (Model3D.vertices m')
   <= size (Model3D.vertices (Examples.model_of Examples.fan)) + 3)%nat
  /\ (size (Model3D.normals m')
      <= size (Model3D.normals (Examples.model_of Examples.fan)) + 1)%nat
  /\ (size (Model3D.normals (Examples.model_of Examples.fan))
      <= Model3D.len (Examples.model_of Examples.fan))%nat
  /\ (size (Model3D.normals m') <= Model3D.len m')%nat.
Proof.
  exact (pool_sizes (fun _ => True) (Examples.vertex 1 0 0 0) (Examples.vertex 2 2 0 0)
           (Examples.vertex 3 0 2 2) None 9 (Examples.model_of Examples.fan)
           model_of_fan_reachable).
Defined.

(** * Slicing and inserting *)

Lemma add_triangle_triangles (v1 v2 v3 : ref Vector3.t) (norm : option (ref Normal.t))
    (fresh : nat) (m : Model3D.t) :
  let r := fst (Model3D.add_triangle v1 v2 v3 norm fresh m) in
  let m' := snd (Model3D.add_triangle v1 v2 v3 norm fresh m) in
  (r = Ok tt -> exists t, Model3D.triangles m' = Model3D.triangles m ++ [t])
  /\ (forall e, r = Raise e -> rejection e -> Model3D.triangles m' = Model3D.triangles m).
Proof.
  cbv zeta.
  destruct (add_triangle_run v1 v2 v3 norm fresh m) as (p1 & p2 & p3 & _ & _ & _ & Hrun).
  rewrite Hrun. clear Hrun.
  destruct (Triangle.init p1 p2 p3 norm fresh) as [triangle | e0].
  - cbv zeta.
    destruct (Model3D.normals m !! _) as [q |];
      match goal with |- context [snd (Model3D.update_extents ?t ?s)] =>
        destruct (quiet_update_extents t s) as [Hp Hne];
        apply pools_inv in Hp; destruct Hp as (HT & _ & _)
      end;
      (split; [intros _; eexists; rewrite HT; reflexivity |]);
      intros e He [-> | [-> | ->]]; now apply Hne in He.
  - simpl. split; [discriminate | reflexivity].
Qed.

Lemma segments_app {A} (l1 l2 : list (list A)) :
  Spec.segments (l1 ++ l2) = Spec.segments l1 ++ Spec.segments l2.
Proof. unfold Spec.segments. apply flat_map_app. Qed.

Lemma segments_length {A} (l : list (list A)) :
  (length (Spec.segments l) <= length l)%nat.
Proof.
  induction l as [| [| a [| b [| c p]]] l IH]; simpl; lia.
Qed.

(** Inserting never disturbs a slice already taken: after an accepted
    [add_triangle] the slice at any z is the slice of the model before,
    followed by at most one segment, that of the new triangle; after a
    rejected one the slice is the same. *)
Theorem slice_at_z_after_add_triangle (v1 v2 v3 : ref Vector3.t)
    (norm : option (ref Normal.t)) (fresh : nat) (m : Model3D.t) (targetz : float) :
  let r := fst (Model3D.add_triangle v1 v2 v3 norm fresh m) in
  let m' := snd (Model3D.add_triangle v1 v2 v3 norm fresh m) in
  exists before,
    fst (Model3D.slice_at_z targetz m) = Ok before
    /\ (r = Ok tt ->
        exists new, fst (Model3D.slice_at_z targetz m') = Ok (before ++ new)
                    /\ (length new <= 1)%nat)
    /\ (forall e, r = Raise e -> rejection e ->
        fst (Model3D.slice_at_z targetz m') = Ok before).
Proof.
  cbv zeta. rewrite !slice_at_z_run. cbn [fst].
  destruct (add_triangle_triangles v1 v2 v3 norm fresh m) as [Hok Hrej].
  eexists. split; [reflexivity |]. split.
  - intros H. destruct (Hok H) as [t ->].
    rewrite map_app, segments_app. eexists. split; [reflexivity |].
    apply (segments_length [_]).
  - intros e H He. now rewrite (Hrej e H He).
Qed.

(** A slice has at most one segment for each triangle of the model. *)
Theorem slice_at_z_at_most_one_per_triangle (m : Model3D.t) (targetz : float) :
  exists segs,
    fst (Model3D.slice_at_z targetz m) = Ok segs
    /\ (length segs <= Model3D.len m)%nat.
Proof.
  rewrite slice_at_z_run. eexists. split; [reflexivity |].
  etransitivity; [apply segments_length |].
  unfold Model3D.len. now rewrite length_map.
Qed.

(** * The extents are the bounding box *)

Lemma widen1_ok (b : float * float) (S : float -> Prop) (c : float) :
  axis_ok b S -> number c -> axis_ok (widen1 c b) (fun d => S d \/ d = c).
Proof.
  destruct b as [lo hi]. unfold axis_ok, widen1. simpl.
  intros (Hlo & Hhi & Hle & Hall & Slo & Shi) Hc.
  destruct (c <? lo)%float eqn:E1; simpl.
  - pose proof (float_ltb_leb _ _ E1) as Hcl.
    repeat split; auto.
    + exact (float_leb_trans _ _ _ Hcl Hle).
    + destruct H as [H | ->]; [| now apply float_leb_refl].
      exact (float_leb_trans _ _ _ Hcl (proj1 (Hall _ H))).
    + destruct H as [H | ->]; [exact (proj2 (Hall _ H)) |].
      exact (float_leb_trans _ _ _ Hcl Hle).
  - pose proof (float_not_ltb_leb _ _ Hc Hlo E1) as Hlc.
    destruct (hi <? c)%float eqn:E2; simpl.
    + pose proof (float_ltb_leb _ _ E2) as Hhc.
      repeat split; auto.
      * destruct H as [H | ->]; [exact (proj1 (Hall _ H)) | exact Hlc].
      * destruct H as [H | ->]; [| now apply float_leb_refl].
        exact (float_leb_trans _ _ _ (proj2 (Hall _ H)) Hhc).
    + pose proof (float_not_ltb_leb _ _ Hhi Hc E2) as Hch.
      repeat split; auto.
      * destruct H as [H | ->]; [exact (proj1 (Hall _ H)) | exact Hlc].
      * destruct H as [H | ->]; [exact (proj2 (Hall _ H)) | exact Hch].
Qed.

Lemma axis_ok_ext (b : float * float) (S S' : float -> Prop) :
  (forall c, S c <-> S' c) -> axis_ok b S -> axis_ok b S'.
Proof.
  intros HS (Hlo & Hhi & Hle & Hall & Slo & Shi).
  repeat split; auto; try (now apply HS); now apply Hall, HS.
Qed.

Lemma axis_ok_seed (c : float) : number c -> axis_ok (c, c) (fun d => d = c).
Proof.
  intros Hc. unfold axis_ok. simpl.
  repeat split; auto using float_leb_refl; subst; now apply float_leb_refl.
Qed.

Lemma widen3_ok (t : Triangle.t) (coord : Vector3.t -> float) (b : float * float)
    (S : float -> Prop) :
  Forall (fun v => number (coord v)) (corners t) ->
  axis_ok b S ->
  axis_ok (widen3 t coord b) (fun d => S d \/ exists v, In v (corners t) /\ coord v = d).
Proof.
  unfold corners. intros Hn Hb.
  apply Forall_cons in Hn as [H0 Hn]. apply Forall_cons in Hn as [H1 Hn].
  apply Forall_cons in Hn as [H2 _].
  unfold widen3.
  eapply axis_ok_ext; [| exact (widen1_ok _ _ _ (widen1_ok _ _ _ (widen1_ok _ _ _ Hb H0) H1) H2)].
  intros c. simpl. split.
  - intros [[[H | ->] | ->] | ->]; eauto 8.
  - intros [H | (v & [<- | [<- | [<- | []]]] & <-)]; auto.
Qed.

Lemma widen3_first (t : Triangle.t) (coord : Vector3.t -> float) :
  Forall (fun v => number (coord v)) (corners t) ->
  axis_ok (widen3 t coord (coord (deref (Triangle.vertex0 t)), coord (deref (Triangle.vertex0 t))))
          (fun d => exists v, In v (corners t) /\ coord v = d).
Proof.
  intros Hn.
  assert (H0 : number (coord (deref (Triangle.vertex0 t)))).
  { unfold corners in Hn. now apply Forall_cons in Hn as [H0 _]. }
  eapply axis_ok_ext; [| exact (widen3_ok t coord _ _ Hn (axis_ok_seed _ H0))].
  intros c. simpl. split.
  - intros [-> | H]; [| exact H]. exists (deref (Triangle.vertex0 t)).
    split; [left |]; reflexivity.
  - auto.
Qed.

Lemma coordinates_snoc (coord : Vector3.t -> float) (m m' : Model3D.t) (t : Triangle.t) :
  Model3D.triangles m' = Model3D.triangles m ++ [t] ->
  forall c, (coordinates coord m c \/ exists v, In v (corners t) /\ coord v = c)
            <-> coordinates coord m' c.
Proof.
  intros HT c. unfold coordinates. rewrite HT. split.
  - intros [(t0 & v & Ht & Hv & Hc) | (v & Hv & Hc)].
    + exists t0, v. rewrite in_app_iff. auto.
    + exists t, v. rewrite in_app_iff. simpl. auto.
  - intros (t0 & v & Ht & Hv & Hc). apply in_app_iff in Ht as [Ht | [<- | []]]; eauto 6.
Qed.

Lemma pooled_numbers (v : ref Vector3.t) (V : gmap string (ref Vector3.t)) :
  numbers (deref v) ->
  (forall k w, V !! k = Some w -> numbers (deref w)) ->
  forall k w, pooled v V !! k = Some w -> numbers (deref w).
Proof.
  intros Hv HV k w. unfold pooled. destruct (Model3D.not_in _ V); [| apply HV].
  rewrite lookup_insert. case_decide; [intros [= <-]; exact Hv | apply HV].
Qed.

Lemma spans_intro lo hi (coord : Vector3.t -> float) (m : Model3D.t) (w : float * float) :
  lo = Some (fst w) -> hi = Some (snd w) -> axis_ok w (coordinates coord m) ->
  spans lo hi coord m.
Proof.
  intros -> -> Hw. exists (fst w), (snd w). now rewrite <- surjective_pairing.
Qed.

Lemma add_triangle_keeps_boxed (v1 v2 v3 : ref Vector3.t) (norm : option (ref Normal.t))
    (fresh : nat) (m : Model3D.t) :
  numbers (deref v1) -> numbers (deref v2) -> numbers (deref v3) ->
  shaped m -> boxed m ->
  boxed (snd (Model3D.add_triangle v1 v2 v3 norm fresh m)).
Proof.
  intros N1 N2 N3 Hshape [Hpool Hbox].
  set (V3 := pooled v3 (pooled v2 (pooled v1 (Model3D.vertices m)))).
  assert (HV3 : forall k w, V3 !! k = Some w -> numbers (deref w)).
  { subst V3. repeat apply pooled_numbers; assumption. }
  destruct (add_triangle_cases v1 v2 v3 norm fresh m Hshape)
    as [(e & _ & ->) | (t & N' & _ & E1 & E2 & E3 & ->)]; cbn [snd].
  - split; [exact HV3 | exact Hbox].
  - fold V3 in E1, E2, E3.
    set (s5 := Model3D.set_triangles (fun l => l ++ [t])
                 (Model3D.set_normals (fun _ => N')
                    (Model3D.set_vertices (fun _ => V3) m))).
    destruct (pools_inv _ _ (updated_pools t s5)) as (HT & HV & _).
    change (Model3D.triangles s5) with (Model3D.triangles m ++ [t]) in HT.
    change (Model3D.vertices s5) with V3 in HV.
    assert (Hc : forall coord : Vector3.t -> float,
              (forall v, numbers v -> number (coord v)) ->
              Forall (fun v => number (coord v)) (corners t)).
    { intros coord Hcoord. unfold corners.
      repeat constructor; apply Hcoord; eapply HV3; eassumption. }
    assert (Hx := Hc Vector3.x (fun v H => proj1 H)).
    assert (Hy := Hc Vector3.y (fun v H => proj1 (proj2 H))).
    assert (Hz := Hc Vector3.z (fun v H => proj2 (proj2 H))).
    change (boxed (updated t s5)).
    split; [intros k w; rewrite HV; apply HV3 |]. right.
    destruct Hshape as [(Hnil & Hu & _) | (Hne & _)].
    + assert (Hfirst : forall coord c,
                (exists v, In v (corners t) /\ coord v = c)
                <-> coordinates coord (updated t s5) c).
      { intros coord c. rewrite <- (coordinates_snoc coord m _ t HT c).
        unfold coordinates at 1. rewrite Hnil. simpl.
        split; [intros H; right; exact H | intros [(t0 & v & [] & _) | H]; exact H]. }
      assert (Hext : updated t s5
                     = Model3D.mk (Model3D.triangles s5) (Model3D.vertices s5)
                         (Model3D.normals s5) (Model3D.name s5)
                         (Some (fst (widen3 t Vector3.x (Vector3.x (deref (Triangle.vertex0 t)), Vector3.x (deref (Triangle.vertex0 t))))))
                         (Some (snd (widen3 t Vector3.x (Vector3.x (deref (Triangle.vertex0 t)), Vector3.x (deref (Triangle.vertex0 t))))))
                         (Some (fst (widen3 t Vector3.y (Vector3.y (deref (Triangle.vertex0 t)), Vector3.y (deref (Triangle.vertex0 t))))))
                         (Some (snd (widen3 t Vector3.y (Vector3.y (deref (Triangle.vertex0 t)), Vector3.y (deref (Triangle.vertex0 t))))))
                         (Some (fst (widen3 t Vector3.z (Vector3.z (deref (Triangle.vertex0 t)), Vector3.z (deref (Triangle.vertex0 t))))))
                         (Some (snd (widen3 t Vector3.z (Vector3.z (deref (Triangle.vertex0 t)), Vector3.z (deref (Triangle.vertex0 t))))))
                         (0 + sum3 t Vector3.x) (0 + sum3 t Vector3.y) (0 + sum3 t Vector3.z)).
      { unfold updated. change (Model3D.extents s5) with (Model3D.extents m).
        unfold unset in Hu. rewrite Hu. reflexivity. }
      repeat split.
      * eapply spans_intro; [rewrite Hext; reflexivity | rewrite Hext; reflexivity |].
        eapply axis_ok_ext; [apply Hfirst | apply widen3_first, Hx].
      * eapply spans_intro; [rewrite Hext; reflexivity | rewrite Hext; reflexivity |].
        eapply axis_ok_ext; [apply Hfirst | apply widen3_first, Hy].
      * eapply spans_intro; [rewrite Hext; reflexivity | rewrite Hext; reflexivity |].
        eapply axis_ok_ext; [apply Hfirst | apply widen3_first, Hz].
    + destruct Hbox as [Hnil | (Sx & Sy & Sz)]; [congruence |].
      destruct Sx as (xl & xh & Exl & Exh & Ax), Sy as (yl & yh & Eyl & Eyh & Ay),
        Sz as (zl & zh & Ezl & Ezh & Az).
      assert (Hext : updated t s5
                     = Model3D.mk (Model3D.triangles s5) (Model3D.vertices s5)
                         (Model3D.normals s5) (Model3D.name s5)
                         (Some (fst (widen3 t Vector3.x (xl, xh))))
                         (Some (snd (widen3 t Vector3.x (xl, xh))))
                         (Some (fst (widen3 t Vector3.y (yl, yh))))
                         (Some (snd (widen3 t Vector3.y (yl, yh))))
                         (Some (fst (widen3 t Vector3.z (zl, zh))))
                         (Some (snd (widen3 t Vector3.z (zl, zh))))
                         (Model3D.mx m + sum3 t Vector3.x) (Model3D.my m + sum3 t Vector3.y)
                         (Model3D.mz m + sum3 t Vector3.z)).
      { unfold updated. change (Model3D.extents s5) with (Model3D.extents m).
        unfold Model3D.extents. rewrite Exl, Exh, Eyl, Eyh, Ezl, Ezh. reflexivity. }
      repeat split.
      * eapply spans_intro; [rewrite Hext; reflexivity | rewrite Hext; reflexivity |].
        eapply axis_ok_ext; [apply (coordinates_snoc _ m _ t HT) | now apply widen3_ok].
      * eapply spans_intro; [rewrite Hext; reflexivity | rewrite Hext; reflexivity |].
        eapply axis_ok_ext; [apply (coordinates_snoc _ m _ t HT) | now apply widen3_ok].
      * eapply spans_intro; [rewrite Hext; reflexivity | rewrite Hext; reflexivity |].
        eapply axis_ok_ext; [apply (coordinates_snoc _ m _ t HT) | now apply widen3_ok].
Qed.

Lemma reachable_boxed (m : Model3D.t) : reachable numbers m -> boxed m.
Proof.
  induction 1 as [| v1 v2 v3 norm fresh m N1 N2 N3 Hm IH].
  - split; [| now left]. intros k v. simpl. rewrite lookup_empty. discriminate.
  - apply add_triangle_keeps_boxed; try assumption.
    exact (reachable_shaped _ m Hm).
Qed.

(** On every model built from a new one by [add_triangle] calls whose
    vertices have number coordinates (no NaN), once a triangle is stored
    the extents are the bounding box of the stored triangles: on each
    axis, [min] and [max] are floats, every vertex of every stored triangle
    lies between them, and each of the two is the coordinate of such a
    vertex. *)
Theorem extents_are_the_bounding_box (m : Model3D.t) :
  reachable numbers m ->
  Model3D.triangles m <> [] ->
  spans (Model3D.xmin m) (Model3D.xmax m) Vector3.x m
  /\ spans (Model3D.ymin m) (Model3D.ymax m) Vector3.y m
  /\ spans (Model3D.zmin m) (Model3D.zmax m) Vector3.z m.
Proof.
  intros Hm Hne. destruct (reachable_boxed m Hm) as [_ [Hnil | H]]; [congruence | exact H].
Qed.

Lemma fan_numbers : Forall (fun t => Forall numbers (corners t)) Examples.fan.
Proof.
  unfold Examples.fan.
  repeat (apply List.Forall_cons;
          [unfold corners;
           repeat (apply List.Forall_cons;
                   [split; [| split]; vm_compute; reflexivity |]);
           apply List.Forall_nil |]).
  apply List.Forall_nil.
Qed.

Lemma extents_are_the_bounding_box_witness :
  spans (Model3D.xmin (Examples.model_of Examples.fan))
        (Model3D.xmax (Examples.model_of Examples.fan)) Vector3.x
        (Examples.model_of Examples.fan)
  /\ spans (Model3D.ymin (Examples.model_of Examples.fan))
           (Model3D.ymax (Examples.model_of Examples.fan)) Vector3.y
           (Examples.model_of Examples.fan)
  /\ spans (Model3D.zmin (Examples.model_of Examples.fan))
           (Model3D.zmax (Examples.model_of Examples.fan)) Vector3.z
           (Examples.model_of Examples.fan).
Proof.
  apply (extents_are_the_bounding_box (Examples.model_of Examples.fan)).
  - exact (model_of_reachable numbers Examples.fan fan_numbers).
  - vm_compute. discriminate.
Defined.

Lemma add_triangle_outcome_cases (v1 v2 v3 : ref Vector3.t) (norm : option (ref Normal.t))
    (fresh : nat) (m : Model3D.t) :
  shaped m ->
  Model3D.triangles (snd (Model3D.add_triangle v1 v2 v3 norm fresh m))
  = Model3D.triangles m
  \/ exists t, Model3D.triangles (snd (Model3D.add_triangle v1 v2 v3 norm fresh m))
               = Model3D.triangles m ++ [t].
Proof.
  intros Hshape.
  destruct (add_triangle_cases v1 v2 v3 norm fresh m Hshape)
    as [(e & _ & ->) | (t & N' & _ & _ & _ & _ & ->)]; [left; reflexivity | right].
  exists t. cbn [snd].
  match goal with |- context [updated t ?s] =>
    destruct (pools_inv _ _ (updated_pools t s)) as (-> & _ & _)
  end.
  reflexivity.
Qed.

Lemma spans_monotone (coord : Vector3.t -> float) (m m' : Model3D.t) lo hi lo' hi' :
  (forall c, coordinates coord m c -> coordinates coord m' c) ->
  spans lo hi coord m -> spans lo' hi' coord m' ->
  exists l h l' h', lo = Some l /\ hi = Some h /\ lo' = Some l' /\ hi' = Some h'
                    /\ (l' <=? l)%float = true /\ (h <=? h')%float = true.
Proof.
  intros Hsub (l & h & -> & -> & A) (l' & h' & -> & -> & A').
  exists l, h, l', h'. repeat split; try reflexivity.
  - destruct A as (_ & _ & _ & _ & Sl & _), A' as (_ & _ & _ & Hall & _).
    exact (proj1 (Hall _ (Hsub _ Sl))).
  - destruct A as (_ & _ & _ & _ & _ & Sh), A' as (_ & _ & _ & Hall & _).
    exact (proj2 (Hall _ (Hsub _ Sh))).
Qed.

(** The extents only widen: on a model that holds a triangle and was
    built by [add_triangle] calls with number coordinates, one more such
    call, accepted or rejected, leaves every [min] at or below and every
    [max] at or above what it was. *)
Theorem extents_only_widen (v1 v2 v3 : ref Vector3.t) (norm : option (ref Normal.t))
    (fresh : nat) (m : Model3D.t) :
  reachable numbers m ->
  numbers (deref v1) -> numbers (deref v2) -> numbers (deref v3) ->
  Model3D.triangles m <> [] ->
  let m' := snd (Model3D.add_triangle v1 v2 v3 norm fresh m) in
  (exists l h l' h',
     Model3D.xmin m = Some l /\ Model3D.xmax m = Some h
     /\ Model3D.xmin m' = Some l' /\ Model3D.xmax m' = Some h'
     /\ (l' <=? l)%float = true /\ (h <=? h')%float = true)
  /\ (exists l h l' h',
        Model3D.ymin m = Some l /\ Model3D.ymax m = Some h
        /\ Model3D.ymin m' = Some l' /\ Model3D.ymax m' = Some h'
        /\ (l' <=? l)%float = true /\ (h <=? h')%float = true)
  /\ (exists l h l' h',
        Model3D.zmin m = Some l /\ Model3D.zmax m = Some h
        /\ Model3D.zmin m' = Some l' /\ Model3D.zmax m' = Some h'
        /\ (l' <=? l)%float = true /\ (h <=? h')%float = true).
Proof.
  intros Hm N1 N2 N3 Hne m'.
  assert (Hm' : reachable numbers m') by (now apply reachable_add).
  assert (Hsub : forall coord c, coordinates coord m c -> coordinates coord m' c).
  { intros coord c (t & v & Ht & Hv & Hc). exists t, v. split; [| auto].
    unfold m'.
    destruct (add_triangle_outcome_cases v1 v2 v3 norm fresh m (reachable_shaped _ m Hm))
      as [-> | [t' ->]]; [exact Ht | apply in_app_iff; auto]. }
  assert (Hne' : Model3D.triangles m' <> []).
  { unfold m'.
    destruct (add_triangle_outcome_cases v1 v2 v3 norm fresh m (reachable_shaped _ m Hm))
      as [E | [t' E]]; rewrite E; [exact Hne |].
    intros E'. now apply app_eq_nil in E' as [_ [=]]. }
  destruct (reachable_boxed m Hm) as [_ [Hnil | (Sx & Sy & Sz)]]; [congruence |].
  destruct (reachable_boxed m' Hm') as [_ [Hnil | (Sx' & Sy' & Sz')]]; [congruence |].
  repeat split.
  - exact (spans_monotone Vector3.x m m' _ _ _ _ (Hsub _) Sx Sx').
  - exact (spans_monotone Vector3.y m m' _ _ _ _ (Hsub _) Sy Sy').
  - exact (spans_monotone Vector3.z m m' _ _ _ _ (Hsub _) Sz Sz').
Qed.

Lemma extents_only_widen_witness :
  let m := Examples.model_of Examples.fan in
  let m' := snd (Model3D.add_triangle (Examples.vertex 21 (-1) 0 0)
                   (Examples.vertex 22 50 0 0) (Examples.vertex 23 0 7 (-3)) None 9 m) in
  (exists l h l' h',
     Model3D.xmin m = Some l /\ Model3D.xmax m = Some h
     /\ Model3D.xmin m' = Some l' /\ Model3D.xmax m' = Some h'
     /\ (l' <=? l)%float = true /\ (h <=? h')%float = true)
  /\ (exists l h l' h',
        Model3D.ymin m = Some l /\ Model3D.ymax m = Some h
        /\ Model3D.ymin m' = Some l' /\ Model3D.ymax m' = Some h'
        /\ (l' <=? l)%float = true /\ (h <=? h')%float = true)
  /\ (exists l h l' h',
        Model3D.zmin m = Some l /\ Model3D.zmax m = Some h
        /\ Model3D.zmin m' = Some l' /\ Model3D.zmax m' = Some h'
        /\ (l' <=? l)%float = true /\ (h <=? h')%float = true).
Proof.
  apply (extents_only_widen (Examples.vertex 21 (-1) 0 0) (Examples.vertex 22 50 0 0)
           (Examples.vertex 23 0 7 (-3)) None 9 (Examples.model_of Examples.fan)).
  - exact (model_of_reachable numbers Examples.fan fan_numbers).
  - split; [| split]; vm_compute; reflexivity.
  - split; [| split]; vm_compute; reflexivity.
  - split; [| split]; vm_compute; reflexivity.
  - vm_compute. discriminate.
Defined.

Example widened_fan :
  Model3D.extents
    (snd (Model3D.add_triangle (Examples.vertex 21 (-1) 0 0) (Examples.vertex 22 50 0 0)
            (Examples.vertex 23 0 7 (-3)) None 9 (Examples.model_of Examples.fan)))
  = ((Some (-1), Some 50), (Some 0, Some 7), (Some (-3), Some 2))%float.
Proof. vm_compute. reflexivity. Qed.
